(** * pyuavcan DSDL serialization core: the Deserializer and the composite
      object contract, embedded from

      - [pyuavcan/dsdl/_serialized_representation/_deserializer.py]
      - [pyuavcan/dsdl/_composite_object.py]

    Python integers are [Z]; the byte buffer (a flat [numpy.uint8] array) is
    a [list Z]; exceptions are an explicit result type; the mutable
    deserializer object is threaded through a state-and-error monad, so that
    the state left behind by a raised exception is observable. *)

From stdpp Require Import base list strings gmap.
From Stdlib Require Import ZArith Lia.

Local Open Scope Z_scope.

(** ** Exceptions and results *)

(** The exception classes the modelled code raises.  [FormatError] is
    [Deserializer.FormatError]; the others are the Python built-ins. *)
Inductive exn : Set :=
| FormatError
| ValueError
| IndexError
| TypeError
| AttributeError
| AssertionError
| NotImplementedError.

Inductive result (A : Type) : Type :=
| Ok (a : A)
| Raise (e : exn).
Arguments Ok {A} a.
Arguments Raise {A} e.

(** ** Python sequence primitives *)

Module Py.

(** [x[i]]: negative indices count from the end, anything outside
    [-len, len) raises IndexError. *)
Definition index {A} (l : list A) (i : Z) : result A :=
  let n := Z.of_nat (length l) in
  let j := if i <? 0 then i + n else i in
  if (0 <=? j) && (j <? n) then
    match l !! Z.to_nat j with
    | Some x => Ok x
    | None => Raise IndexError
    end
  else Raise IndexError.

(** Normalisation of one slice bound against a length (step 1). *)
Definition clamp (n i : Z) : Z :=
  if i <? 0 then Z.max 0 (i + n) else Z.min i n.

(** [x[a:b]]: never raises, silently truncates. *)
Definition slice {A} (l : list A) (a b : Z) : list A :=
  let n := Z.of_nat (length l) in
  let a' := clamp n a in
  let b' := clamp n b in
  take (Z.to_nat (b' - a')) (drop (Z.to_nat a') l).

(** [len(x)] *)
Definition len {A} (l : list A) : Z := Z.of_nat (length l).

(** [range(n)] *)
Definition range (n : Z) : list Z := Z.of_nat <$> seq 0 (Z.to_nat n).

(** The eight bits of a byte, most significant first. *)
Definition byte_bits (b : Z) : list bool :=
  (fun k => Z.testbit b (7 - k)) <$> range 8.

(** [numpy.unpackbits(bs)] *)
Definition unpackbits (bs : list Z) : list bool :=
  mbind byte_bits bs.

(** Little-endian integer held by a run of bytes: the raw pattern behind
    [struct.unpack('<e'|'<f'|'<d', ..)] and behind one item of
    [numpy.frombuffer]. *)
Fixpoint le_pattern (bs : list Z) : Z :=
  match bs with
  | [] => 0
  | b :: bs' => Z.lor b (Z.shiftl (le_pattern bs') 8)
  end.

(** Cut a byte string into items of [k] bytes each. *)
Fixpoint chunks (fuel : nat) (k : nat) (bs : list Z) : list (list Z) :=
  match fuel with
  | O => []
  | S fuel' => take k bs :: chunks fuel' k (drop k bs)
  end.

(** [numpy.frombuffer(buf, dtype=.., count=.., offset=..)] for a dtype of
    [itemsize] bytes; the items are returned as raw little-endian
    patterns.  A negative count means "everything that is left". *)
Definition frombuffer (buf : list Z) (itemsize count offset : Z) : result (list Z) :=
  let n := len buf in
  if (offset <? 0) || (n <? offset) then Raise ValueError
  else
    let s := n - offset in
    if count <? 0 then
      if negb (s mod itemsize =? 0) then Raise ValueError
      else Ok (le_pattern <$> chunks (Z.to_nat (s / itemsize)) (Z.to_nat itemsize)
                                      (drop (Z.to_nat offset) buf))
    else if s <? count * itemsize then Raise ValueError
    else Ok (le_pattern <$> chunks (Z.to_nat count) (Z.to_nat itemsize)
                                    (drop (Z.to_nat offset) buf)).

End Py.

(** ** The deserializer object *)

(** [sys.byteorder], which selects the concrete class in [Deserializer.new]. *)
Inductive byteorder : Set := little | big.

(** [_buf_bit_length] is assigned once in [__init__] as [len(_buf) * 8] and
    never written again, so it is kept as a derived quantity below. *)
Record Deserializer : Type := mkDeserializer {
  _cls : byteorder;
  _buf : list Z;
  _bit_offset : Z
}.

Definition _buf_bit_length (d : Deserializer) : Z := Py.len (_buf d) * 8.

(** [Deserializer.new] over a [bytearray]/[memoryview]: [numpy.frombuffer]
    yields a flat uint8 array, so neither ValueError branch of [__init__]
    can be taken. *)
Definition new (order : byteorder) (source_bytes : list Z) : Deserializer :=
  {| _cls := order; _buf := source_bytes; _bit_offset := 0 |}.

Definition consumed_bit_length (d : Deserializer) : Z := _bit_offset d.

Definition remaining_bit_length (d : Deserializer) : Z :=
  _buf_bit_length d - _bit_offset d.

Definition _byte_offset (d : Deserializer) : Z := _bit_offset d / 8.

(** Every element of the buffer is a [numpy.uint8]. *)
Definition is_byte (b : Z) : bool := (0 <=? b) && (b <? 256).
Definition bytes_ok (bs : list Z) : bool := forallb is_byte bs.

(** ** State-and-error monad over the deserializer *)

Definition M (A : Type) : Type := Deserializer -> result A * Deserializer.

Definition ret {A} (a : A) : M A := fun d => (Ok a, d).

Definition raise {A} (e : exn) : M A := fun d => (Raise e, d).

Definition bind {A B} (m : M A) (k : A -> M B) : M B :=
  fun d =>
    match m d with
    | (Ok a, d') => k a d'
    | (Raise e, d') => (Raise e, d')
    end.

Notation "'let*' x ':=' m 'in' k" := (bind m (fun x => k))
  (at level 10, x name, m at level 100, k at level 200).

(** [self] *)
Definition self : M Deserializer := fun d => (Ok d, d).

(** The same object with its cursor moved by [n] bits. *)
Definition advanced (d : Deserializer) (n : Z) : Deserializer :=
  {| _cls := _cls d; _buf := _buf d; _bit_offset := _bit_offset d + n |}.

(** [self._bit_offset += n] *)
Definition bit_offset_add (n : Z) : M unit :=
  fun d => (Ok tt, advanced d n).

(** A pure computation that may raise. *)
Definition lift {A} (r : result A) : M A := fun d => (r, d).

(** [assert b] *)
Definition assert (b : bool) : M unit :=
  if b then ret tt else raise AssertionError.

(** [try: m except IndexError: h]; the state changes made by [m] before
    the exception are kept. *)
Definition try_except_IndexError {A} (m h : M A) : M A :=
  fun d =>
    match m d with
    | (Raise IndexError, d') => h d'
    | r => r
    end.

(** [for i in range(..): acc = body(i, acc)] *)
Fixpoint for_each {S} (idx : list Z) (body : Z -> S -> M S) (acc : S) : M S :=
  match idx with
  | [] => ret acc
  | i :: idx' => let* acc' := body i acc in for_each idx' body acc'
  end.

(** The same two constructs for code that raises but holds no state
    (static methods). *)
#[global] Instance result_ret : MRet result := fun A a => Ok a.
#[global] Instance result_bind : MBind result := fun A B k r =>
  match r with
  | Ok a => k a
  | Raise e => Raise e
  end.

Definition check (b : bool) : result unit :=
  if b then Ok tt else Raise AssertionError.

Fixpoint fold_range {S} (idx : list Z) (body : Z -> S -> result S) (acc : S) : result S :=
  match idx with
  | [] => Ok acc
  | i :: idx' => acc' ← body i acc; fold_range idx' body acc'
  end.

(** ** Deserializer methods *)

Definition require_remaining_bit_length (inclusive_minimum : Z) : M unit :=
  let* d := self in
  if remaining_bit_length d <? inclusive_minimum then
    let* _ := assert (consumed_bit_length d + remaining_bit_length d =? _buf_bit_length d) in
    raise FormatError
  else ret tt.

(** This is used for padding bits. *)
Definition skip_bits (bit_length : Z) : M unit :=
  let* d := self in
  if remaining_bit_length d >=? bit_length then
    bit_offset_add bit_length
  else
    raise IndexError.

(** *** Fast methods for aligned primitive fields *)

Definition fetch_aligned_array_of_bits (count : Z) : M (list bool) :=
  let* d := self in
  let* _ := assert (_bit_offset d mod 8 =? 0) in
  let bs := Py.slice (_buf d) (_byte_offset d) (_byte_offset d + (count + 7) / 8) in
  let out := Py.slice (Py.unpackbits bs) 0 count in
  if negb (Py.len out =? count) then raise IndexError
  else
    let* _ := bit_offset_add count in
    ret out.

Definition fetch_aligned_bytes (count : Z) : M (list Z) :=
  let* d := self in
  let* _ := assert (_bit_offset d mod 8 =? 0) in
  let out := Py.slice (_buf d) (_byte_offset d) (_byte_offset d + count) in
  if negb (Py.len out =? count) then raise IndexError
  else
    let* _ := bit_offset_add (count * 8) in
    ret out.

Definition fetch_aligned_u8 : M Z :=
  let* d := self in
  let* _ := assert (_bit_offset d mod 8 =? 0) in
  let* out := lift (Py.index (_buf d) (_byte_offset d)) in
  let* _ := bit_offset_add 8 in
  ret out.

Definition fetch_aligned_u16 : M Z :=
  let* out := fetch_aligned_u8 in
  let* hi := fetch_aligned_u8 in
  ret (Z.lor out (Z.shiftl hi 8)).

Definition fetch_aligned_u32 : M Z :=
  let* out := fetch_aligned_u16 in
  let* hi := fetch_aligned_u16 in
  ret (Z.lor out (Z.shiftl hi 16)).

Definition fetch_aligned_u64 : M Z :=
  let* out := fetch_aligned_u32 in
  let* hi := fetch_aligned_u32 in
  ret (Z.lor out (Z.shiftl hi 32)).

Definition fetch_aligned_i8 : M Z :=
  let* x := fetch_aligned_u8 in
  ret (if x >=? 128 then x - 256 else x).

Definition fetch_aligned_i16 : M Z :=
  let* x := fetch_aligned_u16 in
  ret (if x >=? 32768 then x - 65536 else x).

Definition fetch_aligned_i32 : M Z :=
  let* x := fetch_aligned_u32 in
  ret (if x >=? 2 ^ 31 then x - 2 ^ 32 else x).

Definition fetch_aligned_i64 : M Z :=
  let* x := fetch_aligned_u64 in
  ret (if x >=? 2 ^ 63 then x - 2 ^ 64 else x).

(** [struct.unpack] of a little-endian float: the value is represented by
    its IEEE 754 bit pattern. *)
Definition fetch_aligned_f16 : M Z :=
  let* bs := fetch_aligned_bytes 2 in ret (Py.le_pattern bs).

Definition fetch_aligned_f32 : M Z :=
  let* bs := fetch_aligned_bytes 4 in ret (Py.le_pattern bs).

Definition fetch_aligned_f64 : M Z :=
  let* bs := fetch_aligned_bytes 8 in ret (Py.le_pattern bs).

(** *** Private static method *)

(** Body of the loop of [_unsigned_from_bytes]. *)
Definition or_whole_byte (x : list Z) (i : Z) (out : Z) : result Z :=
  xi ← Py.index x i; Ok (Z.lor out (Z.shiftl xi (i * 8))).

Definition _unsigned_from_bytes (x : list Z) (bit_length : Z) : result Z :=
  _ ← check (bit_length >=? 1);
  let num_bytes := (bit_length + 7) / 8 in
  _ ← check (num_bytes >? 0);
  let last_byte_index := num_bytes - 1 in
  _ ← check (Py.len x >=? num_bytes);
  out ← fold_range (Py.range last_byte_index) (or_whole_byte x) 0;
  let shift := Z.land (8 - bit_length mod 8) 7 in
  xl ← Py.index x last_byte_index;
  let out := Z.lor out (Z.shiftl (Z.shiftr xl shift) (last_byte_index * 8)) in
  _ ← check ((0 <=? out) && (out <? 2 ^ bit_length));
  Ok out.

(** *** Aligned start, non-standard bit length *)

Definition fetch_aligned_unsigned (bit_length : Z) : M Z :=
  let* d := self in
  let* _ := assert (_bit_offset d mod 8 =? 0) in
  let bs := Py.slice (_buf d) (_byte_offset d) (_byte_offset d + (bit_length + 7) / 8) in
  if Py.len bs * 8 <? bit_length then raise IndexError
  else
    let* _ := bit_offset_add bit_length in
    lift (_unsigned_from_bytes bs bit_length).

Definition fetch_aligned_signed (bit_length : Z) : M Z :=
  let* _ := assert (bit_length >=? 2) in
  let* u := fetch_aligned_unsigned bit_length in
  ret (if u >=? 2 ^ (bit_length - 1) then u - 2 ^ bit_length else u).

(** *** No assumptions about alignment *)

(** Body of the loop of [fetch_unaligned_bytes]: one output byte from two
    adjacent source bytes. *)
Definition unaligned_byte_step (left right : Z) (i : Z) (out : list Z) : M (list Z) :=
  let* d := self in
  let byte_offset := _byte_offset d in
  let* a := lift (Py.index (_buf d) byte_offset) in
  let* b := lift (Py.index (_buf d) (byte_offset + 1)) in
  let out := <[Z.to_nat i := Z.lor (Z.land (Z.shiftl a left) 255) (Z.shiftr b right)]> out in
  let* _ := bit_offset_add 8 in
  ret out.

(** [numpy.empty(count)] is modelled as zeros: every cell is written
    before the array is returned. *)
Definition fetch_unaligned_bytes (count : Z) : M (list Z) :=
  if count >? 0 then
    let* d := self in
    if negb (_bit_offset d mod 8 =? 0) then
      let out := replicate (Z.to_nat count) 0 in
      let left := _bit_offset d mod 8 in
      let right := 8 - left in
      let* _ := assert ((1 <=? right) && (right <=? 7) && ((1 <=? left) && (left <=? 7))) in
      let last_index := count - 1 in
      let* out := for_each (Py.range last_index) (unaligned_byte_step left right) out in
      let* d := self in
      let* a := lift (Py.index (_buf d) (_byte_offset d)) in
      let x := Z.land (Z.shiftl a left) 255 in
      let* _ := bit_offset_add 8 in
      let* x := try_except_IndexError
                  (let* d := self in
                   let* b := lift (Py.index (_buf d) (_byte_offset d)) in
                   ret (Z.lor x (Z.shiftr b right)))
                  (ret x) in
      let out := <[Z.to_nat last_index := x]> out in
      let* _ := assert (Py.len out =? count) in
      ret out
    else
      fetch_aligned_bytes count
  else
    ret [].

Definition fetch_unaligned_array_of_bits (count : Z) : M (list bool) :=
  let byte_count := (count + 7) / 8 in
  let* bs := fetch_unaligned_bytes byte_count in
  let* _ := assert (Py.len bs =? byte_count) in
  let backtrack := byte_count * 8 - count in
  let* _ := assert ((0 <=? backtrack) && (backtrack <? 8)) in
  let* _ := bit_offset_add (- backtrack) in
  let out := Py.slice (Py.unpackbits bs) 0 count in
  let* _ := assert (Py.len out =? count) in
  ret out.

Definition fetch_unaligned_unsigned (bit_length : Z) : M Z :=
  let byte_length := (bit_length + 7) / 8 in
  let* bs := fetch_unaligned_bytes byte_length in
  let* _ := assert (Py.len bs =? byte_length) in
  let backtrack := byte_length * 8 - bit_length in
  let* _ := assert ((0 <=? backtrack) && (backtrack <? 8)) in
  let* _ := bit_offset_add (- backtrack) in
  lift (_unsigned_from_bytes bs bit_length).

Definition fetch_unaligned_signed (bit_length : Z) : M Z :=
  let* _ := assert (bit_length >=? 2) in
  let* u := fetch_unaligned_unsigned bit_length in
  ret (if u >=? 2 ^ (bit_length - 1) then u - 2 ^ bit_length else u).

Definition fetch_unaligned_f16 : M Z :=
  let* bs := fetch_unaligned_bytes 2 in ret (Py.le_pattern bs).

Definition fetch_unaligned_f32 : M Z :=
  let* bs := fetch_unaligned_bytes 4 in ret (Py.le_pattern bs).

Definition fetch_unaligned_f64 : M Z :=
  let* bs := fetch_unaligned_bytes 8 in ret (Py.le_pattern bs).

Definition fetch_unaligned_bit : M bool :=
  let* d := self in
  let mask := Z.shiftl 1 (7 - _bit_offset d mod 8) in
  let* _ := assert ((1 <=? mask) && (mask <=? 128)) in
  let* b := lift (Py.index (_buf d) (_byte_offset d)) in
  let out := Z.land b mask =? mask in
  let* _ := bit_offset_add 1 in
  ret out.

(** *** Platform-specific classes *)

(** The numpy dtypes of standard bit length (never bool or object, which
    the two array methods reject by assertion). *)
Inductive dtype : Set :=
| uint8 | uint16 | uint32 | uint64
| int8 | int16 | int32 | int64
| float16 | float32 | float64.

(** [numpy.dtype(dtype).itemsize] *)
Definition itemsize (t : dtype) : Z :=
  match t with
  | uint8 | int8 => 1
  | uint16 | int16 | float16 => 2
  | uint32 | int32 | float32 => 4
  | uint64 | int64 | float64 => 8
  end.

Definition fetch_aligned_array_of_standard_bit_length_primitives
    (t : dtype) (count : Z) : M (list Z) :=
  let* d := self in
  match _cls d with
  | little =>
      let* _ := assert (_bit_offset d mod 8 =? 0) in
      let* out := lift (Py.frombuffer (_buf d) (itemsize t) count (_byte_offset d)) in
      let* _ := assert (Py.len out =? count) in
      let* _ := bit_offset_add (Py.len out * itemsize t * 8) in
      ret out
  | big => raise NotImplementedError
  end.

Definition fetch_unaligned_array_of_standard_bit_length_primitives
    (t : dtype) (count : Z) : M (list Z) :=
  let* d := self in
  match _cls d with
  | little =>
      let* bs := fetch_unaligned_bytes (itemsize t * count) in
      let* _ := assert (Py.len bs >=? count) in
      lift (Py.frombuffer bs (itemsize t) count 0)
  | big => raise NotImplementedError
  end.

(** ** The composite object contract *)

Section CompositeObject.

(** [pydsdl.CompositeType] and the Serializer class are collaborators
    that the contract only passes around. *)
Context {Model Serializer : Type}.

(** A generated class, with [V] the type of its instances. *)
Record CompositeObject (V : Type) : Type := {
  _MODEL_ : Model;
  _MAX_SERIALIZED_REPRESENTATION_SIZE_BYTES_ : Z;
  _serialize_aligned_ : V -> Serializer -> result unit * Serializer;
  _deserialize_aligned_ : M V
}.
Arguments _MODEL_ {V} _.
Arguments _MAX_SERIALIZED_REPRESENTATION_SIZE_BYTES_ {V} _.
Arguments _serialize_aligned_ {V} _ _ _.
Arguments _deserialize_aligned_ {V} _ _.

(** A class generated from a service definition: the members it inherits
    from [CompositeObject] plus the two nested classes. *)
Record ServiceClass (V Req Resp : Type) : Type := {
  as_composite : CompositeObject V;
  Request : CompositeObject Req;
  Response : CompositeObject Resp
}.
Arguments as_composite {V Req Resp} _.

(** The base class [ServiceObject]: what every generated service class
    inherits. *)
Definition ServiceObject {V Req Resp} (model : Model)
    (request : CompositeObject Req) (response : CompositeObject Resp)
    : ServiceClass V Req Resp :=
  {| as_composite :=
       {| _MODEL_ := model;
          _MAX_SERIALIZED_REPRESENTATION_SIZE_BYTES_ := 0;
          _serialize_aligned_ := fun _ _ser_ => (Raise TypeError, _ser_);
          _deserialize_aligned_ := raise TypeError |};
     Request := request;
     Response := response |}.

(** [FixedPortServiceObject(ServiceObject, FixedPortObject)]: adds
    nothing but the port identifier. *)
Record FixedPortServiceClass (V Req Resp : Type) : Type := {
  as_service : ServiceClass V Req Resp;
  _FIXED_PORT_ID_ : Z
}.
Arguments as_service {V Req Resp} _.

Definition FixedPortServiceObject {V Req Resp} (model : Model)
    (request : CompositeObject Req) (response : CompositeObject Resp)
    (port : Z) : FixedPortServiceClass V Req Resp :=
  {| as_service := ServiceObject model request response;
     _FIXED_PORT_ID_ := port |}.

Definition get_model {V} (class_or_instance : CompositeObject V) : Model :=
  _MODEL_ class_or_instance.

(** What [_logger.info] receives when a FormatError is swallowed. *)
Record log_record : Type := {
  logged_model : Model;
  logged_deserializer : Deserializer
}.

(** The contiguous region [deserialize] hands to [Deserializer.new]. *)
Definition contiguous (fragmented_serialized_representation : list (list Z)) : list Z :=
  if Py.len fragmented_serialized_representation =? 1 then
    match Py.index fragmented_serialized_representation 0 with
    | Ok fragment => fragment
    | Raise _ => []
    end
  else
    mjoin fragmented_serialized_representation.

(** [deserialize]; [order] is [sys.byteorder] and [info_enabled] is
    [_logger.isEnabledFor(logging.INFO)].  The second component is what
    was logged. *)
Definition deserialize {V} (order : byteorder) (info_enabled : bool)
    (dtype : CompositeObject V)
    (fragmented_serialized_representation : list (list Z))
    : result (option V) * list log_record :=
  let deserializer := new order (contiguous fragmented_serialized_representation) in
  match _deserialize_aligned_ dtype deserializer with
  | (Ok v, _) => (Ok (Some v), [])
  | (Raise FormatError, deserializer') =>
      (Ok None,
       if info_enabled
       then [ {| logged_model := get_model dtype; logged_deserializer := deserializer' |} ]
       else [])
  | (Raise e, _) => (Raise e, [])
  end.

End CompositeObject.

Arguments CompositeObject : clear implicits.
Arguments ServiceClass : clear implicits.
Arguments FixedPortServiceClass : clear implicits.
Arguments _MODEL_ {Model Serializer V} _.
Arguments _serialize_aligned_ {Model Serializer V} _ _ _.
Arguments _deserialize_aligned_ {Model Serializer V} _ _.
Arguments as_composite {Model Serializer V Req Resp} _.
Arguments as_service {Model Serializer V Req Resp} _.

(** ** Attribute access *)

Section Attributes.

(** An object is the finite map from its attribute names to their
    values. *)
Context {Value : Type}.

Definition getattr (obj : gmap string Value) (name : string) : result Value :=
  match obj !! name with
  | Some v => Ok v
  | None => Raise AttributeError
  end.

Definition hasattr (obj : gmap string Value) (name : string) : bool :=
  bool_decide (is_Some (obj !! name)).

Definition setattr (obj : gmap string Value) (name : string) (value : Value)
    : gmap string Value :=
  <[name := value]> obj.

Definition get_attribute (obj : gmap string Value) (name : string) : result Value :=
  match getattr obj name with
  | Raise AttributeError => getattr obj (name +:+ "_")
  | r => r
  end.

(** The object after the call is returned next to the outcome. *)
Definition set_attribute (obj : gmap string Value) (name : string) (value : Value)
    : result unit * gmap string Value :=
  let suffixed := name +:+ "_" in
  if hasattr obj name then (Ok tt, setattr obj name value)
  else if hasattr obj suffixed then (Ok tt, setattr obj suffixed value)
  else (Raise AttributeError, obj).

End Attributes.

(** ** Vocabulary for the statements *)

(** *** One fetch request, of any kind *)

Inductive value : Type :=
| VBit (b : bool)
| VInt (z : Z)
| VFloat (pattern : Z)
| VBytes (bs : list Z)
| VBits (bits : list bool)
| VArray (items : list Z).

Inductive fetch : Type :=
| AlignedArrayOfPrimitives (t : dtype) (count : Z)
| AlignedArrayOfBits (count : Z)
| AlignedBytes (count : Z)
| AlignedU8 | AlignedU16 | AlignedU32 | AlignedU64
| AlignedI8 | AlignedI16 | AlignedI32 | AlignedI64
| AlignedF16 | AlignedF32 | AlignedF64
| AlignedUnsigned (bit_length : Z)
| AlignedSigned (bit_length : Z)
| UnalignedArrayOfPrimitives (t : dtype) (count : Z)
| UnalignedArrayOfBits (count : Z)
| UnalignedBytes (count : Z)
| UnalignedUnsigned (bit_length : Z)
| UnalignedSigned (bit_length : Z)
| UnalignedF16 | UnalignedF32 | UnalignedF64
| UnalignedBit.

Definition returning {A} (wrap : A -> value) (m : M A) : M value :=
  let* a := m in ret (wrap a).

(** The method a request stands for. *)
Definition perform (op : fetch) : M value :=
  match op with
  | AlignedArrayOfPrimitives t count =>
      returning VArray (fetch_aligned_array_of_standard_bit_length_primitives t count)
  | AlignedArrayOfBits count => returning VBits (fetch_aligned_array_of_bits count)
  | AlignedBytes count => returning VBytes (fetch_aligned_bytes count)
  | AlignedU8 => returning VInt fetch_aligned_u8
  | AlignedU16 => returning VInt fetch_aligned_u16
  | AlignedU32 => returning VInt fetch_aligned_u32
  | AlignedU64 => returning VInt fetch_aligned_u64
  | AlignedI8 => returning VInt fetch_aligned_i8
  | AlignedI16 => returning VInt fetch_aligned_i16
  | AlignedI32 => returning VInt fetch_aligned_i32
  | AlignedI64 => returning VInt fetch_aligned_i64
  | AlignedF16 => returning VFloat fetch_aligned_f16
  | AlignedF32 => returning VFloat fetch_aligned_f32
  | AlignedF64 => returning VFloat fetch_aligned_f64
  | AlignedUnsigned bit_length => returning VInt (fetch_aligned_unsigned bit_length)
  | AlignedSigned bit_length => returning VInt (fetch_aligned_signed bit_length)
  | UnalignedArrayOfPrimitives t count =>
      returning VArray (fetch_unaligned_array_of_standard_bit_length_primitives t count)
  | UnalignedArrayOfBits count => returning VBits (fetch_unaligned_array_of_bits count)
  | UnalignedBytes count => returning VBytes (fetch_unaligned_bytes count)
  | UnalignedUnsigned bit_length => returning VInt (fetch_unaligned_unsigned bit_length)
  | UnalignedSigned bit_length => returning VInt (fetch_unaligned_signed bit_length)
  | UnalignedF16 => returning VFloat fetch_unaligned_f16
  | UnalignedF32 => returning VFloat fetch_unaligned_f32
  | UnalignedF64 => returning VFloat fetch_unaligned_f64
  | UnalignedBit => returning VBit fetch_unaligned_bit
  end.

(** The bit length L of the value a request asks for. *)
Definition fetched_bit_length (op : fetch) : Z :=
  match op with
  | AlignedArrayOfPrimitives t count | UnalignedArrayOfPrimitives t count =>
      count * itemsize t * 8
  | AlignedArrayOfBits count | UnalignedArrayOfBits count => count
  | AlignedBytes count | UnalignedBytes count => count * 8
  | AlignedU8 | AlignedI8 => 8
  | AlignedU16 | AlignedI16 | AlignedF16 | UnalignedF16 => 16
  | AlignedU32 | AlignedI32 | AlignedF32 | UnalignedF32 => 32
  | AlignedU64 | AlignedI64 | AlignedF64 | UnalignedF64 => 64
  | AlignedUnsigned bit_length | AlignedSigned bit_length
  | UnalignedUnsigned bit_length | UnalignedSigned bit_length => bit_length
  | UnalignedBit => 1
  end.

(** The element count a request carries, when it carries one. *)
Definition requested_count (op : fetch) : Z :=
  match op with
  | AlignedArrayOfPrimitives _ count | UnalignedArrayOfPrimitives _ count
  | AlignedArrayOfBits count | UnalignedArrayOfBits count
  | AlignedBytes count | UnalignedBytes count => count
  | _ => 0
  end.

(** *** Readings of the non-standard-width unsigned layout *)

(** Whole bytes laid out little-endian from byte position [s]: the byte
    at index [i] of [l] is shifted left by [8 * (s + i)]. *)
Definition whole_bytes (s : nat) (l : list Z) : Z :=
  foldr Z.lor 0 (imap (fun i b => Z.shiftl b (8 * Z.of_nat (s + i))) l).

(** Bytes [0 .. n-2] of [bs] contribute all eight bits, byte [i] shifted
    left by [8 * i]; byte [n-1] contributes its high [final_bits] bits,
    shifted right to justify. *)
Definition reconstruct (bs : list Z) (n final_bits : Z) : Z :=
  Z.lor
    (whole_bytes 0 (take (Z.to_nat (n - 1)) bs))
    (Z.shiftl (Z.shiftr (bs !!! Z.to_nat (n - 1)) (8 - final_bits)) (8 * (n - 1))).

(** The reading in the specification's words: [ceil(bit_length/8)] bytes,
    the final one contributing its high [bit_length mod 8] bits. *)
Definition spec_aligned_unsigned (bs : list Z) (bit_length : Z) : Z :=
  reconstruct bs ((bit_length + 7) / 8) (bit_length mod 8).

(** The same with the final byte contributing [(bit_length - 1) mod 8 + 1]
    bits: [bit_length mod 8] of them unless that is zero, else all eight. *)
Definition justified_aligned_unsigned (bs : list Z) (bit_length : Z) : Z :=
  reconstruct bs ((bit_length + 7) / 8) ((bit_length - 1) mod 8 + 1).

(** Two's-complement reinterpretation of an unsigned [bit_length]-bit
    value, as the two signed fetches compute it. *)
Definition twos_complement (u bit_length : Z) : Z :=
  if u >=? 2 ^ (bit_length - 1) then u - 2 ^ bit_length else u.

(** *** The serialized representation as a stream of bits *)

(** Byte [j] of the buffer, zero past its end. *)
Definition byte_at (buf : list Z) (j : nat) : Z := default 0 (buf !! j).

(** Bit [k] of the stream held by [buf]: within a byte, bit index 0 is the
    most significant one.  Past the end of the buffer the stream reads as
    zeros. *)
Definition stream_bit (buf : list Z) (k : Z) : bool :=
  Z.testbit (byte_at buf (Z.to_nat (k / 8))) (7 - k mod 8).

(** The [n] bits of the stream from bit [k] on. *)
Fixpoint stream_bits (buf : list Z) (k : Z) (n : nat) : list bool :=
  match n with
  | O => []
  | S n' => stream_bit buf k :: stream_bits buf (k + 1) n'
  end.

(** The byte that starts [left] bits into source byte [j]: the low bits of
    byte [j] followed by the high bits of byte [j + 1] (zeros when that one
    is past the end). *)
Definition unaligned_byte (buf : list Z) (left : Z) (j : nat) : Z :=
  Z.lor (Z.land (Z.shiftl (byte_at buf j) left) 255)
        (Z.shiftr (byte_at buf (S j)) (8 - left)).

(** *** The value a run of stream bits stands for *)

(** A run of bits read as a binary numeral, most significant bit first. *)
Definition bits_be (bits : list bool) : Z :=
  foldl (fun acc (b : bool) => 2 * acc + Z.b2z b) 0 bits.

(** The bits taken in groups of eight, each group a numeral, the groups
    weighing [256^0, 256^1, ..] in order of appearance; a final group of
    fewer than eight bits is simply a shorter numeral. *)
Fixpoint little_endian_groups (fuel : nat) (bits : list bool) : Z :=
  match fuel with
  | O => 0
  | S fuel' =>
      match bits with
      | [] => 0
      | _ => bits_be (take 8 bits) + 2 ^ 8 * little_endian_groups fuel' (drop 8 bits)
      end
  end.

Definition bits_value (bits : list bool) : Z :=
  little_endian_groups (length bits) bits.

(** [count] single-bit reads in a row, as a generated decoder issues them. *)
Fixpoint fetch_bits_one_by_one (count : nat) : M (list bool) :=
  match count with
  | O => ret []
  | S count' =>
      let* b := fetch_unaligned_bit in
      let* bs := fetch_bits_one_by_one count' in
      ret (b :: bs)
  end.

(** A computation that, whatever its outcome, leaves behind the object it
    started from with at most the cursor moved. *)
Definition moves_cursor_only {A} (m : M A) : Prop :=
  forall d r d', m d = (r, d') -> exists n, d' = advanced d n.

(** The requests that make no assumption about alignment and are well
    formed: a width of at least one bit (two when signed), a non-negative
    count. *)
Definition unaligned_request (op : fetch) : bool :=
  match op with
  | UnalignedArrayOfBits count | UnalignedBytes count => 0 <=? count
  | UnalignedUnsigned bit_length => 1 <=? bit_length
  | UnalignedSigned bit_length => 2 <=? bit_length
  | UnalignedF16 | UnalignedF32 | UnalignedF64 | UnalignedBit => true
  | _ => false
  end.

(** *** Sample classes and buffers *)

(** A message with one uint8 field: its generated decoder checks the
    minimum length and reads the field. *)
Definition Octet : CompositeObject unit unit Z :=
  {| _MODEL_ := tt;
     _MAX_SERIALIZED_REPRESENTATION_SIZE_BYTES_ := 1;
     _serialize_aligned_ := fun _ _ser_ => (Ok tt, _ser_);
     _deserialize_aligned_ :=
       let* _ := require_remaining_bit_length 8 in fetch_aligned_u8 |}.

(** A defective decoder that skips padding without any length check. *)
Definition Unchecked : CompositeObject unit unit unit :=
  {| _MODEL_ := tt;
     _MAX_SERIALIZED_REPRESENTATION_SIZE_BYTES_ := 8;
     _serialize_aligned_ := fun _ _ser_ => (Ok tt, _ser_);
     _deserialize_aligned_ := skip_bits 64 |}.

(** The four-byte buffer of the unaligned unit test. *)
Definition test_buffer : list Z := [170; 93; 204; 145].

(** The 45-byte buffer of the aligned unit test. *)
Definition aligned_sample : list Z :=
  [167; 239; 205; 171; 144; 120; 86; 52; 18; 136; 169; 203; 237; 254; 255;
   0; 127; 0; 0; 0; 0; 0; 0; 240; 63; 0; 0; 128; 63; 0; 124; 218; 224; 218;
   190; 254; 128; 173; 222; 239; 190; 163; 230; 163; 208].

(** The 31-byte buffer of the unaligned unit test. *)
Definition unaligned_sample : list Z :=
  [163; 244; 232; 145; 162; 179; 18; 52; 86; 159; 243; 47; 192; 0; 0; 0; 0;
   0; 30; 7; 224; 0; 16; 7; 224; 31; 149; 187; 221; 247; 192].

(** * Properties *)

(** ** Inversion of successful monadic computations *)

Lemma bind_Ok_inv {A B} (m : M A) (k : A -> M B) d b d' :
  bind m k d = (Ok b, d') ->
  exists a d1, m d = (Ok a, d1) /\ k a d1 = (Ok b, d').
Proof.
  unfold bind. destruct (m d) as [[a|e] d1]; intros H.
  - exists a, d1. split; [reflexivity | exact H].
  - discriminate H.
Qed.

Lemma assert_Ok_inv b d u d' :
  assert b d = (Ok u, d') -> b = true /\ d' = d.
Proof.
  unfold assert. destruct b; cbn; intros H; [|discriminate H].
  inversion H. split; reflexivity.
Qed.

Lemma lift_Ok_inv {A} (r : result A) d a d' :
  lift r d = (Ok a, d') -> r = Ok a /\ d' = d.
Proof. unfold lift. intros H. inversion H. split; reflexivity. Qed.

Lemma returning_Ok_inv {A} (wrap : A -> value) (m : M A) d v d' :
  returning wrap m d = (Ok v, d') -> exists a, m d = (Ok a, d') /\ v = wrap a.
Proof.
  unfold returning. intros H. apply bind_Ok_inv in H as (a & d1 & Hm & Hr).
  inversion Hr; subst. exists a. split; [exact Hm | reflexivity].
Qed.

(** Break a hypothesis [m d = (Ok v, d')] into the successful steps of [m]. *)
Ltac step_Ok :=
  match goal with
  | H : bind _ _ _ = (Ok _, _) |- _ =>
      let a := fresh "a" in let d1 := fresh "d" in let H1 := fresh "Hstep" in
      apply bind_Ok_inv in H as (a & d1 & H1 & H); cbv beta in H
  | H : self _ = (Ok _, _) |- _ => unfold self in H; inversion H; subst; clear H
  | H : ret _ _ = (Ok _, _) |- _ => unfold ret in H; inversion H; subst; clear H
  | H : raise _ _ = (Ok _, _) |- _ => discriminate H
  | H : bit_offset_add _ _ = (Ok _, _) |- _ =>
      unfold bit_offset_add in H; inversion H; subst; clear H
  | H : assert _ _ = (Ok _, _) |- _ =>
      let Hb := fresh "Hassert" in
      apply assert_Ok_inv in H as [Hb ->]
  | H : lift _ _ = (Ok _, _) |- _ =>
      let Hr := fresh "Hpure" in
      apply lift_Ok_inv in H as [Hr ->]
  end.

Ltac steps_Ok := repeat step_Ok.

(** ** The source's unit tests, replayed on the embedding *)

Example unittest_deserializer_aligned :
  (let* a := fetch_aligned_u8 in
   let* b := fetch_aligned_i64 in
   let* c := fetch_aligned_i32 in
   let* e := fetch_aligned_i16 in
   let* _ := skip_bits 8 in
   let* f := fetch_aligned_i8 in
   let* g := fetch_aligned_f64 in
   let* h := fetch_aligned_f32 in
   let* i := fetch_aligned_f16 in
   let* j := fetch_aligned_unsigned 12 in
   let* _ := skip_bits 4 in
   let* k := fetch_aligned_unsigned 16 in
   let* l := fetch_aligned_signed 9 in
   let* _ := skip_bits 7 in
   let* m := fetch_aligned_array_of_standard_bit_length_primitives uint16 2 in
   let* n := fetch_aligned_array_of_bits 16 in
   let* o := fetch_aligned_array_of_bits 13 in
   ret (a, b, c, e, f, (g, h, i), j, k, l, m, n, o)) (new little aligned_sample)
  = (Ok (0xA7, 0x1234567890abcdef, -0x12345678, -2, 127,
         (0x3FF0000000000000, 0x3F800000, 0x7C00), 0xEDA, 0xBEDA, -2,
         [0xdead; 0xbeef],
         [true; false; true; false; false; false; true; true;
          true; true; true; false; false; true; true; false],
         [true; false; true; false; false; false; true; true;
          true; true; false; true; false]),
     advanced (new little aligned_sample) (45 * 8 - 3)).
Proof. vm_compute. reflexivity. Qed.

Example unittest_deserializer_aligned_faults :
  fst (fetch_aligned_array_of_bits (-1) (new little [1; 2; 3])) = Raise IndexError /\
  fst (fetch_aligned_bytes (-1) (new little [1; 2; 3])) = Raise IndexError /\
  fst (fetch_aligned_array_of_bits 100 (new little [1; 2; 3])) = Raise IndexError /\
  fst (fetch_aligned_bytes 10 (new little [1; 2; 3])) = Raise IndexError /\
  fst (fetch_aligned_unsigned 64 (new little [1; 2; 3])) = Raise IndexError /\
  fst (skip_bits 64 (new little [1; 2; 3])) = Raise IndexError /\
  fst (require_remaining_bit_length (3 * 8 + 1) (new little [1; 2; 3])) = Raise FormatError.
Proof. vm_compute. repeat split; reflexivity. Qed.

Example unittest_deserializer_unaligned_bytes :
  (let* a := fetch_aligned_array_of_bits 3 in
   let* b := fetch_unaligned_bytes 0 in
   let* c := fetch_unaligned_bytes 2 in
   let* e := fetch_unaligned_bytes 1 in
   ret (a, b, c, e)) (new little test_buffer)
  = (Ok ([true; false; true], [], [82; 238], [100]), advanced (new little test_buffer) 27) /\
  fetch_unaligned_bytes 2 (advanced (new little test_buffer) 27)
  = (Raise IndexError, advanced (new little test_buffer) 27).
Proof. vm_compute. split; reflexivity. Qed.

Example unittest_deserializer_unaligned :
  (let* a := fetch_unaligned_array_of_bits 11 in
   let* b := fetch_unaligned_array_of_bits 10 in
   let* c := fetch_unaligned_bytes 3 in
   let* e := fetch_unaligned_array_of_bits 3 in
   let* f := fetch_unaligned_bytes 3 in
   let* g1 := fetch_unaligned_bit in
   let* g2 := fetch_unaligned_bit in
   let* g3 := fetch_unaligned_bit in
   let* g4 := fetch_unaligned_bit in
   let* g5 := fetch_unaligned_bit in
   let* h := fetch_unaligned_signed 8 in
   let* i := fetch_unaligned_unsigned 11 in
   let* j := fetch_unaligned_unsigned 3 in
   let* k := fetch_unaligned_f64 in
   let* l := fetch_unaligned_f32 in
   let* m := fetch_unaligned_f16 in
   let* n := fetch_unaligned_array_of_standard_bit_length_primitives uint16 2 in
   let* _ := skip_bits 5 in
   let* d := self in
   ret (a, b, c, e, f, [g1; g2; g3; g4; g5], h, i, j, (k, l, m), n,
        remaining_bit_length d)) (new little unaligned_sample)
  = (Ok ([true; false; true; false; false; false; true; true; true; true; true],
         [true; false; true; false; false; true; true; true; false; true],
         [0x12; 0x34; 0x56], [false; true; true], [0x12; 0x34; 0x56],
         [true; false; false; true; true], -2, 1893, 6,
         (0x3FF0000000000000, 0x3F800000, 0xFC00), [0xdead; 0xbeef], 0),
     advanced (new little unaligned_sample) (31 * 8)).
Proof. vm_compute. reflexivity. Qed.

(** ** skip_bits *)

Lemma skip_bits_enough bit_length d :
  bit_length <= remaining_bit_length d ->
  skip_bits bit_length d = (Ok tt, advanced d bit_length).
Proof.
  intros H. unfold skip_bits, bind, self.
  destruct (remaining_bit_length d >=? bit_length) eqn:E; [reflexivity | lia].
Qed.

Lemma skip_bits_short bit_length d :
  remaining_bit_length d < bit_length ->
  skip_bits bit_length d = (Raise IndexError, d).
Proof.
  intros H. unfold skip_bits, bind, self.
  destruct (remaining_bit_length d >=? bit_length) eqn:E; [lia | reflexivity].
Qed.

(** C7: skip_bits moves the cursor forward by [n_bits] when
    [n_bits <= remaining_bits]; when [n_bits > remaining_bits] it fails
    with IndexError, the out-of-range fault, which is not FormatError. *)
Theorem skip_bits_spec (n_bits : Z) (d : Deserializer) :
  (n_bits <= remaining_bit_length d ->
     exists d', skip_bits n_bits d = (Ok tt, d') /\
       consumed_bit_length d' = consumed_bit_length d + n_bits /\
       remaining_bit_length d' = remaining_bit_length d - n_bits) /\
  (n_bits > remaining_bit_length d ->
     exists e, fst (skip_bits n_bits d) = Raise e /\
       e = IndexError /\ e <> FormatError).
Proof.
  split; intros H.
  - exists (advanced d n_bits). rewrite skip_bits_enough by exact H.
    split; [reflexivity|].
    unfold consumed_bit_length, remaining_bit_length, _buf_bit_length, advanced; cbn.
    split; lia.
  - exists IndexError. rewrite skip_bits_short by lia.
    split; [reflexivity|]. split; [reflexivity | discriminate].
Qed.

Lemma skip_bits_spec_witness :
  (exists d', skip_bits 8 (new little test_buffer) = (Ok tt, d') /\
     consumed_bit_length d' = consumed_bit_length (new little test_buffer) + 8 /\
     remaining_bit_length d' = remaining_bit_length (new little test_buffer) - 8) /\
  (exists e, fst (skip_bits 64 (new little test_buffer)) = Raise e /\
     e = IndexError /\ e <> FormatError).
Proof.
  split.
  - apply (proj1 (skip_bits_spec 8 (new little test_buffer))). vm_compute. discriminate.
  - apply (proj2 (skip_bits_spec 64 (new little test_buffer))). vm_compute. reflexivity.
Defined.

(** C9: a failing skip is atomic: when [n_bits > remaining_bits] the fault
    is raised and the deserializer, hence both [consumed_bit_length] and
    [remaining_bit_length], is exactly what it was before the call. *)
Theorem skip_bits_failure_atomic (n_bits : Z) (d : Deserializer) :
  n_bits > remaining_bit_length d ->
  exists e d',
    skip_bits n_bits d = (Raise e, d') /\
    d' = d /\
    consumed_bit_length d' = consumed_bit_length d /\
    remaining_bit_length d' = remaining_bit_length d.
Proof.
  intros H. exists IndexError, d. rewrite skip_bits_short by lia. auto.
Qed.

Lemma skip_bits_failure_atomic_witness :
  exists e d',
    skip_bits 64 (advanced (new little test_buffer) 27) = (Raise e, d') /\
    d' = advanced (new little test_buffer) 27 /\
    consumed_bit_length d' = consumed_bit_length (advanced (new little test_buffer) 27) /\
    remaining_bit_length d' = remaining_bit_length (advanced (new little test_buffer) 27).
Proof.
  apply (skip_bits_failure_atomic 64 (advanced (new little test_buffer) 27)).
  vm_compute. reflexivity.
Defined.

(** ** The deserialize boundary *)

Section Boundary.

Context {Model Serializer V : Type}.
Implicit Types (dtype : CompositeObject Model Serializer V).

(** C1: whenever the adapter's decode raises on the deserializer built
    from the fragments, [deserialize] returns None if the exception is
    FormatError (nothing escapes for invalid input), and re-raises the very
    same exception if it is anything else. *)
Theorem deserialize_boundary dtype order info_enabled
    (fragments : list (list Z)) (e : exn) (d' : Deserializer) :
  _deserialize_aligned_ dtype (new order (contiguous fragments)) = (Raise e, d') ->
  fst (deserialize order info_enabled dtype fragments)
  = match e with
    | FormatError => Ok None
    | _ => Raise e
    end.
Proof.
  intros H. unfold deserialize. rewrite H. destruct e; reflexivity.
Qed.

(** A successful decode is passed through. *)
Lemma deserialize_success dtype order info_enabled
    (fragments : list (list Z)) (v : V) (d' : Deserializer) :
  _deserialize_aligned_ dtype (new order (contiguous fragments)) = (Ok v, d') ->
  deserialize order info_enabled dtype fragments = (Ok (Some v), []).
Proof. intros H. unfold deserialize. rewrite H. reflexivity. Qed.

Lemma contiguous_singleton (fragment : list Z) :
  contiguous [fragment] = fragment.
Proof. reflexivity. Qed.

Lemma contiguous_join (fragments : list (list Z)) :
  contiguous fragments = mjoin fragments.
Proof.
  unfold contiguous, Py.len.
  destruct fragments as [|f [|g rest]]; cbn [length]; try reflexivity.
  - cbn. rewrite app_nil_r. reflexivity.
  - destruct (Z.of_nat (S (S (length rest))) =? 1) eqn:E; [|reflexivity].
    apply Z.eqb_eq in E. lia.
Qed.

(** C6: [deserialize] over a fragment sequence gives the same outcome (and
    the same log) as over the one-fragment sequence holding the
    concatenation of all the fragments. *)
Theorem deserialize_fragments_concat dtype order info_enabled
    (fragments : list (list Z)) :
  deserialize order info_enabled dtype fragments
  = deserialize order info_enabled dtype [mjoin fragments].
Proof.
  unfold deserialize.
  rewrite contiguous_singleton, contiguous_join. reflexivity.
Qed.

End Boundary.

Lemma deserialize_boundary_witness :
  fst (deserialize little true Octet []) = Ok None /\
  fst (deserialize little true Unchecked [[1]; [2; 3]]) = Raise IndexError.
Proof.
  split.
  - apply (deserialize_boundary Octet little true []
             FormatError (new little [])).
    vm_compute. reflexivity.
  - apply (deserialize_boundary Unchecked little true [[1]; [2; 3]]
             IndexError (new little [1; 2; 3])).
    vm_compute. reflexivity.
Defined.

(** ** Service classes *)

(** C5: for every service class built on [ServiceObject], with or without
    a fixed port, and every instance of it, [_serialize_aligned_] raises
    TypeError and [_deserialize_aligned_] raises the same TypeError; that
    kind is not FormatError, so [deserialize] lets it through. *)
Theorem service_not_serializable {Model Serializer V Req Resp : Type}
    (model : Model)
    (request : CompositeObject Model Serializer Req)
    (response : CompositeObject Model Serializer Resp)
    (port : Z) (instance : V) (_ser_ : Serializer) (_des_ : Deserializer) :
  let service : ServiceClass Model Serializer V Req Resp :=
    ServiceObject model request response in
  let fixed : FixedPortServiceClass Model Serializer V Req Resp :=
    FixedPortServiceObject model request response port in
  _serialize_aligned_ (as_composite service) instance _ser_ = (Raise TypeError, _ser_) /\
  _deserialize_aligned_ (as_composite service) _des_ = (Raise TypeError, _des_) /\
  _serialize_aligned_ (as_composite (as_service fixed)) instance _ser_ = (Raise TypeError, _ser_) /\
  _deserialize_aligned_ (as_composite (as_service fixed)) _des_ = (Raise TypeError, _des_) /\
  TypeError <> FormatError /\
  (forall order info_enabled fragments,
     fst (deserialize order info_enabled (as_composite service) fragments) = Raise TypeError).
Proof.
  cbn. repeat split; try reflexivity. discriminate.
Qed.

(** ** Attribute access *)

Section AttributeProperties.

Context {Value : Type}.
Implicit Types (obj : gmap string Value) (name : string) (value : Value).

Lemma hasattr_lookup obj name :
  hasattr obj name = match obj !! name with Some _ => true | None => false end.
Proof.
  unfold hasattr. destruct (obj !! name) eqn:E.
  - apply bool_decide_eq_true. eauto.
  - apply bool_decide_eq_false. intros [v Hv]. discriminate Hv.
Qed.

(** C8: [get_attribute] returns the attribute stored under [name] if there
    is one, else the one stored under [name_]; [set_attribute] assigns to
    [name] if it exists, else to [name_] if that exists; when neither
    exists both raise AttributeError and the object is left as it was.  In
    no case does [set_attribute] change the set of attribute names. *)
Theorem attribute_access obj name value :
  get_attribute obj name
  = match obj !! name, obj !! (name +:+ "_") with
    | Some v, _ => Ok v
    | None, Some v => Ok v
    | None, None => Raise AttributeError
    end /\
  set_attribute obj name value
  = match obj !! name, obj !! (name +:+ "_") with
    | Some _, _ => (Ok tt, <[name := value]> obj)
    | None, Some _ => (Ok tt, <[name +:+ "_" := value]> obj)
    | None, None => (Raise AttributeError, obj)
    end /\
  dom (snd (set_attribute obj name value)) = dom obj.
Proof.
  unfold get_attribute, set_attribute, getattr, setattr.
  rewrite !hasattr_lookup.
  destruct (obj !! name) eqn:E1; [|destruct (obj !! (name +:+ "_")) eqn:E2];
    cbn [snd]; (split; [reflexivity|]; split; [reflexivity|]); try reflexivity.
  - rewrite dom_insert_L. apply subseteq_union_1_L, singleton_subseteq_l.
    eapply elem_of_dom_2; exact E1.
  - rewrite dom_insert_L. apply subseteq_union_1_L, singleton_subseteq_l.
    eapply elem_of_dom_2; exact E2.
Qed.

End AttributeProperties.

(** ** Every successful fetch moves the cursor by the requested length *)

(** Turn the boolean tests left in the context into propositions. *)
Ltac reflect_tests :=
  repeat match goal with
  | H : _ && _ = true |- _ => apply andb_prop in H as [? ?]
  | H : negb _ = true |- _ => apply negb_true_iff in H
  | H : negb _ = false |- _ => apply negb_false_iff in H
  | H : (_ =? _) = true |- _ => apply Z.eqb_eq in H
  | H : (_ =? _) = false |- _ => apply Z.eqb_neq in H
  | H : (_ <=? _) = true |- _ => apply Z.leb_le in H
  | H : (_ <=? _) = false |- _ => apply Z.leb_gt in H
  | H : (_ <? _) = true |- _ => apply Z.ltb_lt in H
  | H : (_ <? _) = false |- _ => apply Z.ltb_ge in H
  | H : (_ >=? _) = true |- _ => rewrite Z.geb_leb in H
  | H : (_ >=? _) = false |- _ => rewrite Z.geb_leb in H
  | H : (_ >? _) = true |- _ => rewrite Z.gtb_ltb in H
  | H : (_ >? _) = false |- _ => rewrite Z.gtb_ltb in H
  end.

Lemma advanced_advanced d a b : advanced (advanced d a) b = advanced d (a + b).
Proof. unfold advanced; cbn. f_equal. lia. Qed.

Lemma advanced_eq d a b : a = b -> advanced d a = advanced d b.
Proof. intros ->. reflexivity. Qed.

Lemma fetch_aligned_array_of_bits_Ok count d out d' :
  fetch_aligned_array_of_bits count d = (Ok out, d') ->
  d' = advanced d count /\ Py.len out = count.
Proof.
  unfold fetch_aligned_array_of_bits. intros H. steps_Ok.
  match type of H with context [negb ?c] => destruct c eqn:E end; cbn in H; steps_Ok.
  apply Z.eqb_eq in E. split; [reflexivity | exact E].
Qed.

Lemma fetch_aligned_bytes_Ok count d out d' :
  fetch_aligned_bytes count d = (Ok out, d') ->
  d' = advanced d (count * 8) /\ Py.len out = count.
Proof.
  unfold fetch_aligned_bytes. intros H. steps_Ok.
  match type of H with context [negb ?c] => destruct c eqn:E end; cbn in H; steps_Ok.
  apply Z.eqb_eq in E. split; [reflexivity | exact E].
Qed.

Lemma fetch_aligned_u8_Ok d out d' :
  fetch_aligned_u8 d = (Ok out, d') -> d' = advanced d 8.
Proof. unfold fetch_aligned_u8. intros H. steps_Ok. reflexivity. Qed.

Lemma fetch_aligned_u16_Ok d out d' :
  fetch_aligned_u16 d = (Ok out, d') -> d' = advanced d 16.
Proof.
  unfold fetch_aligned_u16. intros H. steps_Ok.
  apply fetch_aligned_u8_Ok in Hstep, Hstep0. subst.
  rewrite advanced_advanced. reflexivity.
Qed.

Lemma fetch_aligned_u32_Ok d out d' :
  fetch_aligned_u32 d = (Ok out, d') -> d' = advanced d 32.
Proof.
  unfold fetch_aligned_u32. intros H. steps_Ok.
  apply fetch_aligned_u16_Ok in Hstep, Hstep0. subst.
  rewrite advanced_advanced. reflexivity.
Qed.

Lemma fetch_aligned_u64_Ok d out d' :
  fetch_aligned_u64 d = (Ok out, d') -> d' = advanced d 64.
Proof.
  unfold fetch_aligned_u64. intros H. steps_Ok.
  apply fetch_aligned_u32_Ok in Hstep, Hstep0. subst.
  rewrite advanced_advanced. reflexivity.
Qed.

Lemma fetch_aligned_unsigned_Ok bit_length d out d' :
  fetch_aligned_unsigned bit_length d = (Ok out, d') ->
  d' = advanced d bit_length /\
  _unsigned_from_bytes
    (Py.slice (_buf d) (_byte_offset d) (_byte_offset d + (bit_length + 7) / 8))
    bit_length = Ok out.
Proof.
  unfold fetch_aligned_unsigned. intros H. steps_Ok.
  match type of H with context [if ?c then _ else _] => destruct c eqn:E end; steps_Ok.
  split; [reflexivity | assumption].
Qed.

Lemma fetch_aligned_signed_Ok bit_length d out d' :
  fetch_aligned_signed bit_length d = (Ok out, d') ->
  2 <= bit_length /\
  exists u, fetch_aligned_unsigned bit_length d = (Ok u, d') /\
            out = twos_complement u bit_length.
Proof.
  unfold fetch_aligned_signed. intros H. steps_Ok.
  split; [lia|]. exists a0. split; [assumption | reflexivity].
Qed.

Lemma unaligned_byte_step_Ok left right i out d out' d' :
  unaligned_byte_step left right i out d = (Ok out', d') ->
  d' = advanced d 8 /\ length out' = length out.
Proof.
  unfold unaligned_byte_step. intros H. steps_Ok.
  split; [reflexivity | apply length_insert].
Qed.

Lemma unaligned_loop_Ok left right idx : forall out d out' d',
  for_each idx (unaligned_byte_step left right) out d = (Ok out', d') ->
  d' = advanced d (8 * Py.len idx) /\ length out' = length out.
Proof.
  induction idx as [|i idx IH]; intros out d out' d' H; cbn [for_each] in H.
  - steps_Ok. split; [|reflexivity]. unfold advanced, Py.len; cbn.
    destruct d'; cbn; f_equal; lia.
  - steps_Ok. apply unaligned_byte_step_Ok in Hstep as [-> Hlen].
    apply IH in H as [-> Hlen']. split; [|congruence].
    rewrite advanced_advanced. apply advanced_eq.
    unfold Py.len; cbn [length]. lia.
Qed.

Lemma range_len n : Py.len (Py.range n) = Z.max 0 n.
Proof.
  unfold Py.len, Py.range. rewrite length_fmap, length_seq. lia.
Qed.

Lemma try_except_IndexError_Ok {A} (m h : M A) d a d' :
  try_except_IndexError m h d = (Ok a, d') ->
  m d = (Ok a, d') \/ exists d1, m d = (Raise IndexError, d1) /\ h d1 = (Ok a, d').
Proof.
  unfold try_except_IndexError. destruct (m d) as [[x|[]] d1]; intros H;
    try discriminate H; eauto.
Qed.

Lemma fetch_unaligned_bytes_Ok count d out d' :
  fetch_unaligned_bytes count d = (Ok out, d') ->
  0 <= count ->
  d' = advanced d (count * 8) /\ Py.len out = count.
Proof.
  unfold fetch_unaligned_bytes. intros H Hcount.
  destruct (count >? 0) eqn:Epos.
  - steps_Ok.
    match type of H with context [negb ?c] => destruct c eqn:E end; cbn [negb] in H.
    + apply fetch_aligned_bytes_Ok in H. exact H.
    + steps_Ok.
      match goal with
      | Hloop : for_each _ _ _ _ = _ |- _ => apply unaligned_loop_Ok in Hloop as [-> Hlen]
      end.
      match goal with
      | Hlen' : (Py.len _ =? count) = true |- _ => apply Z.eqb_eq in Hlen'; split; [|exact Hlen']
      end.
      match goal with
      | Htry : try_except_IndexError _ _ _ = _ |- _ =>
          apply try_except_IndexError_Ok in Htry as [Hread | (d1 & Hread & Hpass)]
      end.
      * steps_Ok. rewrite !advanced_advanced, range_len. apply advanced_eq. lia.
      * unfold bind, self, lift in Hread.
        match type of Hread with context [Py.index ?l ?i] => destruct (Py.index l i) end;
          inversion Hread; subst.
        steps_Ok. rewrite !advanced_advanced, range_len. apply advanced_eq. lia.
  - steps_Ok. assert (count = 0) as -> by lia.
    split; [|reflexivity]. unfold advanced. destruct d'; cbn. f_equal. lia.
Qed.

Lemma fetch_unaligned_bytes_positive_Ok count d out d' :
  fetch_unaligned_bytes count d = (Ok out, d') ->
  (0 < count /\ d' = advanced d (count * 8) /\ Py.len out = count) \/
  (count <= 0 /\ d' = d /\ out = []).
Proof.
  intros H. destruct (Z_lt_le_dec 0 count) as [Hpos | Hneg].
  - left. split; [exact Hpos|]. apply fetch_unaligned_bytes_Ok in H; [exact H | lia].
  - right. split; [exact Hneg|]. unfold fetch_unaligned_bytes in H.
    destruct (count >? 0) eqn:E; [lia|]. steps_Ok. split; reflexivity.
Qed.

Lemma fetch_unaligned_array_of_bits_Ok count d out d' :
  fetch_unaligned_array_of_bits count d = (Ok out, d') ->
  d' = advanced d count /\ Py.len out = count.
Proof.
  unfold fetch_unaligned_array_of_bits. intros H. steps_Ok.
  match goal with
  | Hlen : (Py.len _ =? count) = true |- _ => apply Z.eqb_eq in Hlen; split; [|exact Hlen]
  end.
  match goal with
  | Hf : fetch_unaligned_bytes _ _ = _ |- _ =>
      apply fetch_unaligned_bytes_positive_Ok in Hf as [(Hpos & -> & Hlen) | (Hneg & -> & ->)]
  end.
  - rewrite advanced_advanced. apply advanced_eq. lia.
  - apply advanced_eq. reflect_tests. unfold Py.len in *. cbn [length] in *. lia.
Qed.

Lemma fetch_unaligned_unsigned_Ok bit_length d out d' :
  fetch_unaligned_unsigned bit_length d = (Ok out, d') ->
  d' = advanced d bit_length /\
  exists bs d1, fetch_unaligned_bytes ((bit_length + 7) / 8) d = (Ok bs, d1) /\
                _unsigned_from_bytes bs bit_length = Ok out.
Proof.
  unfold fetch_unaligned_unsigned. intros H. steps_Ok.
  split; [|eauto].
  match goal with
  | Hf : fetch_unaligned_bytes _ _ = _ |- _ =>
      apply fetch_unaligned_bytes_positive_Ok in Hf as [(Hpos & -> & Hlen) | (Hneg & -> & ->)]
  end.
  - rewrite advanced_advanced. apply advanced_eq. lia.
  - apply advanced_eq. reflect_tests. unfold Py.len in *. cbn [length] in *. lia.
Qed.

Lemma fetch_unaligned_signed_Ok bit_length d out d' :
  fetch_unaligned_signed bit_length d = (Ok out, d') ->
  2 <= bit_length /\
  exists u, fetch_unaligned_unsigned bit_length d = (Ok u, d') /\
            out = twos_complement u bit_length.
Proof.
  unfold fetch_unaligned_signed. intros H. steps_Ok.
  split; [lia|]. eexists. split; [eassumption | reflexivity].
Qed.

Lemma fetch_unaligned_bit_Ok d out d' :
  fetch_unaligned_bit d = (Ok out, d') -> d' = advanced d 1.
Proof. unfold fetch_unaligned_bit. intros H. steps_Ok. reflexivity. Qed.

Lemma fetch_aligned_array_Ok t count d out d' :
  fetch_aligned_array_of_standard_bit_length_primitives t count d = (Ok out, d') ->
  d' = advanced d (count * itemsize t * 8) /\ Py.len out = count.
Proof.
  unfold fetch_aligned_array_of_standard_bit_length_primitives. intros H. steps_Ok.
  destruct (_cls _); steps_Ok.
  match goal with
  | Hlen : (Py.len _ =? count) = true |- _ => apply Z.eqb_eq in Hlen
  end.
  split; [|assumption]. apply advanced_eq. congruence.
Qed.

Lemma fetch_unaligned_array_Ok t count d out d' :
  fetch_unaligned_array_of_standard_bit_length_primitives t count d = (Ok out, d') ->
  0 <= count ->
  d' = advanced d (count * itemsize t * 8).
Proof.
  unfold fetch_unaligned_array_of_standard_bit_length_primitives. intros H Hcount. steps_Ok.
  destruct (_cls _); steps_Ok.
  match goal with
  | Hf : fetch_unaligned_bytes _ _ = _ |- _ => apply fetch_unaligned_bytes_Ok in Hf as [-> _]
  end.
  - apply advanced_eq. lia.
  - destruct t; cbn; lia.
Qed.

(** C4: every successful fetch that asks for a value of bit length L
    (any of the aligned or unaligned methods; an element count, where there
    is one, being non-negative) leaves the cursor exactly L bits further,
    over the same buffer; this includes the unaligned unsigned and
    bit-array reads, which overshoot to a whole number of bytes and step
    back. *)
Theorem fetch_advances_cursor (op : fetch) (d : Deserializer) (v : value) (d' : Deserializer) :
  perform op d = (Ok v, d') ->
  0 <= requested_count op ->
  consumed_bit_length d' = consumed_bit_length d + fetched_bit_length op /\
  _buf d' = _buf d.
Proof.
  intros H Hcount.
  enough (d' = advanced d (fetched_bit_length op)) as -> by (split; reflexivity).
  destruct op; cbn [perform fetched_bit_length requested_count] in *;
    apply returning_Ok_inv in H as (a & H & _).
  - apply fetch_aligned_array_Ok in H as [-> _]. reflexivity.
  - apply fetch_aligned_array_of_bits_Ok in H as [-> _]. reflexivity.
  - apply fetch_aligned_bytes_Ok in H as [-> _]. reflexivity.
  - eapply fetch_aligned_u8_Ok, H.
  - eapply fetch_aligned_u16_Ok, H.
  - eapply fetch_aligned_u32_Ok, H.
  - eapply fetch_aligned_u64_Ok, H.
  - unfold fetch_aligned_i8 in H. steps_Ok. eapply fetch_aligned_u8_Ok; eassumption.
  - unfold fetch_aligned_i16 in H. steps_Ok. eapply fetch_aligned_u16_Ok; eassumption.
  - unfold fetch_aligned_i32 in H. steps_Ok. eapply fetch_aligned_u32_Ok; eassumption.
  - unfold fetch_aligned_i64 in H. steps_Ok. eapply fetch_aligned_u64_Ok; eassumption.
  - unfold fetch_aligned_f16 in H. steps_Ok.
    match goal with Hf : fetch_aligned_bytes _ _ = _ |- _ =>
      apply fetch_aligned_bytes_Ok in Hf as [-> _] end. reflexivity.
  - unfold fetch_aligned_f32 in H. steps_Ok.
    match goal with Hf : fetch_aligned_bytes _ _ = _ |- _ =>
      apply fetch_aligned_bytes_Ok in Hf as [-> _] end. reflexivity.
  - unfold fetch_aligned_f64 in H. steps_Ok.
    match goal with Hf : fetch_aligned_bytes _ _ = _ |- _ =>
      apply fetch_aligned_bytes_Ok in Hf as [-> _] end. reflexivity.
  - apply fetch_aligned_unsigned_Ok in H as [-> _]. reflexivity.
  - apply fetch_aligned_signed_Ok in H as (_ & u & H & _).
    apply fetch_aligned_unsigned_Ok in H as [-> _]. reflexivity.
  - apply fetch_unaligned_array_Ok in H; assumption.
  - apply fetch_unaligned_array_of_bits_Ok in H as [-> _]. reflexivity.
  - apply fetch_unaligned_bytes_Ok in H as [-> _]; [reflexivity | assumption].
  - apply fetch_unaligned_unsigned_Ok in H as [-> _]. reflexivity.
  - apply fetch_unaligned_signed_Ok in H as (_ & u & H & _).
    apply fetch_unaligned_unsigned_Ok in H as [-> _]. reflexivity.
  - unfold fetch_unaligned_f16 in H. steps_Ok.
    match goal with Hf : fetch_unaligned_bytes _ _ = _ |- _ =>
      apply fetch_unaligned_bytes_Ok in Hf as [-> _]; [reflexivity | lia] end.
  - unfold fetch_unaligned_f32 in H. steps_Ok.
    match goal with Hf : fetch_unaligned_bytes _ _ = _ |- _ =>
      apply fetch_unaligned_bytes_Ok in Hf as [-> _]; [reflexivity | lia] end.
  - unfold fetch_unaligned_f64 in H. steps_Ok.
    match goal with Hf : fetch_unaligned_bytes _ _ = _ |- _ =>
      apply fetch_unaligned_bytes_Ok in Hf as [-> _]; [reflexivity | lia] end.
  - eapply fetch_unaligned_bit_Ok, H.
Qed.

Lemma fetch_advances_cursor_witness :
  consumed_bit_length (advanced (new little test_buffer) 14)
  = consumed_bit_length (advanced (new little test_buffer) 3)
    + fetched_bit_length (UnalignedUnsigned 11) /\
  _buf (advanced (new little test_buffer) 14) = _buf (advanced (new little test_buffer) 3).
Proof.
  apply (fetch_advances_cursor (UnalignedUnsigned 11)
           (advanced (new little test_buffer) 3) (VInt 1874)
           (advanced (new little test_buffer) 14)).
  - vm_compute. reflexivity.
  - vm_compute. discriminate.
Defined.

(** ** Indexing facts *)

Lemma index_in_range {A} (l : list A) (i : Z) :
  0 <= i < Py.len l ->
  exists x, l !! Z.to_nat i = Some x /\ Py.index l i = Ok x.
Proof.
  unfold Py.len, Py.index. intros Hi.
  destruct (i <? 0) eqn:E1; [lia|].
  destruct ((0 <=? i) && (i <? Z.of_nat (length l))) eqn:E2;
    [|apply andb_false_iff in E2 as [E2|E2]; lia].
  destruct (lookup_lt_is_Some_2 l (Z.to_nat i)) as [x Hx]; [lia|].
  exists x. rewrite Hx. split; reflexivity.
Qed.

Lemma index_past_end {A} (l : list A) (i : Z) :
  Py.len l <= i -> l !! Z.to_nat i = None /\ Py.index l i = Raise IndexError.
Proof.
  unfold Py.len, Py.index. intros Hi. split.
  - apply lookup_ge_None. lia.
  - destruct (i <? 0) eqn:E1; [lia|].
    destruct ((0 <=? i) && (i <? Z.of_nat (length l))) eqn:E2; [|reflexivity].
    apply andb_prop in E2 as [_ E2]. lia.
Qed.

Lemma byte_offset_advanced_8 d : _byte_offset (advanced d 8) = _byte_offset d + 1.
Proof.
  unfold _byte_offset, advanced; cbn.
  replace (_bit_offset d + 8) with (_bit_offset d + 1 * 8) by lia.
  apply Z.div_add. lia.
Qed.

Lemma byte_offset_advanced_bytes d k :
  _byte_offset (advanced d (8 * k)) = _byte_offset d + k.
Proof.
  unfold _byte_offset, advanced; cbn.
  replace (_bit_offset d + 8 * k) with (_bit_offset d + k * 8) by lia.
  apply Z.div_add. lia.
Qed.

(** ** The unaligned byte copy under a validated demand *)

Lemma unaligned_byte_step_total left right i out d a b :
  Py.index (_buf d) (_byte_offset d) = Ok a ->
  Py.index (_buf d) (_byte_offset d + 1) = Ok b ->
  unaligned_byte_step left right i out d
  = (Ok (<[Z.to_nat i := Z.lor (Z.land (Z.shiftl a left) 255) (Z.shiftr b right)]> out),
     advanced d 8).
Proof.
  intros Ha Hb. unfold unaligned_byte_step, bind, self, lift, bit_offset_add, ret.
  rewrite Ha, Hb. reflexivity.
Qed.

Lemma unaligned_loop_total left right idx : forall out d,
  0 <= _byte_offset d ->
  _byte_offset d + Py.len idx + 1 <= Py.len (_buf d) ->
  exists out',
    for_each idx (unaligned_byte_step left right) out d
    = (Ok out', advanced d (8 * Py.len idx)) /\
    length out' = length out.
Proof.
  induction idx as [|i idx IH]; intros out d Hlo Hhi.
  - exists out. cbn. split; [|reflexivity]. unfold ret. f_equal.
    unfold advanced, Py.len; cbn. destruct d; cbn; f_equal; lia.
  - assert (Hlen : Py.len (i :: idx) = Py.len idx + 1)
      by (unfold Py.len; cbn [length]; lia).
    rewrite Hlen in *.
    assert (0 <= Py.len idx) by (unfold Py.len; lia).
    destruct (index_in_range (_buf d) (_byte_offset d)) as (a & _ & Ha); [lia|].
    destruct (index_in_range (_buf d) (_byte_offset d + 1)) as (b & _ & Hb); [lia|].
    destruct (IH (<[Z.to_nat i := Z.lor (Z.land (Z.shiftl a left) 255) (Z.shiftr b right)]> out)
                 (advanced d 8)) as (out' & Hrun & Hlen').
    + rewrite byte_offset_advanced_8. lia.
    + rewrite byte_offset_advanced_8. cbn. lia.
    + exists out'. split.
      * cbn [for_each]. unfold bind at 1.
        rewrite (unaligned_byte_step_total left right i out d a b Ha Hb).
        rewrite Hrun. f_equal. rewrite advanced_advanced. apply advanced_eq. lia.
      * rewrite Hlen'. apply length_insert.
Qed.

Lemma bind_Ok {A B} (m : M A) (k : A -> M B) d a d1 :
  m d = (Ok a, d1) -> bind m k d = k a d1.
Proof. intros H. unfold bind. rewrite H. reflexivity. Qed.

Lemma bind_self {B} (k : Deserializer -> M B) d : bind self k d = k d d.
Proof. reflexivity. Qed.

Lemma bind_assert {B} (b : bool) (k : unit -> M B) d :
  b = true -> bind (assert b) k d = k tt d.
Proof. intros ->. reflexivity. Qed.

Lemma bind_bit_offset_add {B} n (k : unit -> M B) d :
  bind (bit_offset_add n) k d = k tt (advanced d n).
Proof. reflexivity. Qed.

Lemma bind_lift_Ok {A B} (r : result A) (k : A -> M B) d a :
  r = Ok a -> bind (lift r) k d = k a d.
Proof. intros ->. reflexivity. Qed.

Lemma low_bits_clear a left :
  0 <= left -> Z.land (Z.land (Z.shiftl a left) 255) (Z.ones left) = 0.
Proof.
  intros Hleft. apply Z.bits_inj'. intros n Hn.
  rewrite !Z.land_spec, Z.bits_0.
  destruct (Z_lt_le_dec n left) as [Hlow | Hhigh].
  - rewrite Z.shiftl_spec_low by exact Hlow. reflexivity.
  - rewrite Z.ones_spec_high by lia. apply andb_false_r.
Qed.

(** The unaligned copy for a caller whose bit demand has been validated
    against the remaining length. *)
Lemma unaligned_copy_validated (d : Deserializer) (count demand : Z) :
  0 <= _bit_offset d ->
  _bit_offset d mod 8 <> 0 ->
  0 < demand ->
  count = (demand + 7) / 8 ->
  demand <= remaining_bit_length d ->
  let left := _bit_offset d mod 8 in
  let last := _byte_offset d + count - 1 in
  exists out a,
    fetch_unaligned_bytes count d = (Ok out, advanced d (count * 8)) /\
    Py.len out = count /\
    _buf d !! Z.to_nat last = Some a /\
    out !! Z.to_nat (count - 1)
    = Some (Z.lor (Z.land (Z.shiftl a left) 255)
              (match _buf d !! Z.to_nat (last + 1) with
               | Some b => Z.shiftr b (8 - left)
               | None => 0
               end)) /\
    (Py.len (_buf d) <= last + 1 ->
     _buf d !! Z.to_nat (last + 1) = None /\
     out !! Z.to_nat (count - 1) = Some (Z.land (Z.shiftl a left) 255) /\
     Z.land (Z.land (Z.shiftl a left) 255) (Z.ones left) = 0).
Proof.
  intros Hoff Hmis Hdemand Hcount Hrem left last.
  assert (Hleft : 1 <= left <= 7)
    by (subst left; pose proof (Z.mod_pos_bound (_bit_offset d) 8); lia).
  assert (Hq : 0 <= _byte_offset d) by (unfold _byte_offset; apply Z.div_pos; lia).
  assert (Hsplit : _bit_offset d = 8 * _byte_offset d + left)
    by (unfold _byte_offset; subst left; apply Z.div_mod; lia).
  assert (Hc : 1 <= count /\ 8 * (count - 1) < demand) by (subst count; Z.to_euclidean_division_equations; lia).
  assert (Hfit : _byte_offset d + count <= Py.len (_buf d)).
  { unfold remaining_bit_length, _buf_bit_length in Hrem. lia. }
  destruct (unaligned_loop_total left (8 - left) (Py.range (count - 1))
              (replicate (Z.to_nat count) 0) d) as (out1 & Hloop & Hlen1).
  { exact Hq. }
  { rewrite range_len. lia. }
  rewrite range_len, Z.max_r in Hloop by lia.
  rewrite length_replicate in Hlen1.
  set (d1 := advanced d (8 * (count - 1))) in *.
  assert (Hq1 : _byte_offset d1 = last)
    by (subst d1 last; rewrite byte_offset_advanced_bytes; lia).
  destruct (index_in_range (_buf d) last) as (a & Ha & Hia); [subst last; lia|].
  set (x := Z.land (Z.shiftl a left) 255).
  set (tail := match _buf d !! Z.to_nat (last + 1) with
               | Some b => Z.shiftr b (8 - left)
               | None => 0
               end).
  exists (<[Z.to_nat (count - 1) := Z.lor x tail]> out1), a.
  assert (Hlookup : (<[Z.to_nat (count - 1) := Z.lor x tail]> out1) !! Z.to_nat (count - 1)
                    = Some (Z.lor x tail))
    by (apply list_lookup_insert_eq; lia).
  assert (Hlen : Py.len (<[Z.to_nat (count - 1) := Z.lor x tail]> out1) = count)
    by (unfold Py.len; rewrite length_insert; lia).
  split; [|split; [exact Hlen|split; [exact Ha|split; [exact Hlookup|]]]].
  - unfold fetch_unaligned_bytes.
    destruct (count >? 0) eqn:Epos; [|lia].
    rewrite bind_self.
    destruct (_bit_offset d mod 8 =? 0) eqn:Ealigned; [apply Z.eqb_eq in Ealigned; lia|].
    cbn [negb]. fold left.
    rewrite bind_assert by lia.
    rewrite (bind_Ok _ _ _ _ _ Hloop).
    rewrite bind_self.
    rewrite (bind_lift_Ok _ _ _ a) by (cbn [_buf advanced d1]; rewrite Hq1; exact Hia).
    rewrite bind_bit_offset_add. fold x.
    assert (Htry :
      try_except_IndexError
        (let* d2 := self in
         let* b := lift (Py.index (_buf d2) (_byte_offset d2)) in
         ret (Z.lor x (Z.shiftr b (8 - left))))
        (ret x) (advanced d1 8)
      = (Ok (Z.lor x tail), advanced d1 8)).
    { unfold try_except_IndexError, bind, self, lift, ret.
      rewrite byte_offset_advanced_8, Hq1. cbn [_buf advanced d1].
      destruct (Z_lt_le_dec (last + 1) (Py.len (_buf d))) as [Hin | Hout].
      - destruct (index_in_range (_buf d) (last + 1)) as (b & Hb & Hib); [lia|].
        rewrite Hib. subst tail. rewrite Hb. reflexivity.
      - destruct (index_past_end (_buf d) (last + 1) Hout) as [Hb Hib].
        rewrite Hib. subst tail. rewrite Hb, Z.lor_0_r. reflexivity. }
    rewrite (bind_Ok _ _ _ _ _ Htry).
    rewrite bind_assert by (apply Z.eqb_eq; exact Hlen).
    unfold ret. f_equal. subst d1. rewrite advanced_advanced. apply advanced_eq. lia.
  - intros Hout. destruct (index_past_end (_buf d) (last + 1) Hout) as [Hb _].
    split; [exact Hb|]. split.
    + rewrite Hlookup. subst tail. rewrite Hb, Z.lor_0_r. reflexivity.
    + apply low_bits_clear. lia.
Qed.

(** C2: an unaligned read of [count] bytes, made for a caller that wants
    [demand] bits ([count] being [demand] rounded up to whole bytes) and
    has checked that at least [demand] bits remain, succeeds and moves the
    cursor by [count] bytes; the last output byte is the source byte [a]
    under the cursor shifted left, or-ed with the next source byte shifted
    right when that byte exists and with zero when it lies past the end of
    the buffer, in which case the low bits of the last output byte are
    zero.  No IndexError escapes. *)
Theorem fetch_unaligned_bytes_at_stream_end (d : Deserializer) (count demand : Z) :
  0 <= _bit_offset d ->
  _bit_offset d mod 8 <> 0 ->
  0 < demand ->
  count = (demand + 7) / 8 ->
  demand <= remaining_bit_length d ->
  let left := _bit_offset d mod 8 in
  let last := _byte_offset d + count - 1 in
  exists out a,
    fetch_unaligned_bytes count d = (Ok out, advanced d (count * 8)) /\
    Py.len out = count /\
    _buf d !! Z.to_nat last = Some a /\
    out !! Z.to_nat (count - 1)
    = Some (Z.lor (Z.land (Z.shiftl a left) 255)
              (match _buf d !! Z.to_nat (last + 1) with
               | Some b => Z.shiftr b (8 - left)
               | None => 0
               end)) /\
    (Py.len (_buf d) <= last + 1 ->
     _buf d !! Z.to_nat (last + 1) = None /\
     out !! Z.to_nat (count - 1) = Some (Z.land (Z.shiftl a left) 255) /\
     Z.land (Z.land (Z.shiftl a left) 255) (Z.ones left) = 0).
Proof. exact (unaligned_copy_validated d count demand). Qed.

Lemma fetch_unaligned_bytes_at_stream_end_witness :
  let d := advanced (new little test_buffer) 27 in
  exists out a,
    fetch_unaligned_bytes 1 d = (Ok out, advanced d (1 * 8)) /\
    Py.len out = 1 /\
    _buf d !! Z.to_nat 3 = Some a /\
    out !! Z.to_nat (1 - 1)
    = Some (Z.lor (Z.land (Z.shiftl a 3) 255)
              (match _buf d !! Z.to_nat (3 + 1) with
               | Some b => Z.shiftr b (8 - 3)
               | None => 0
               end)) /\
    (Py.len (_buf d) <= 3 + 1 ->
     _buf d !! Z.to_nat (3 + 1) = None /\
     out !! Z.to_nat (1 - 1) = Some (Z.land (Z.shiftl a 3) 255) /\
     Z.land (Z.land (Z.shiftl a 3) 255) (Z.ones 3) = 0).
Proof.
  apply (fetch_unaligned_bytes_at_stream_end (advanced (new little test_buffer) 27) 1 5);
    vm_compute; try reflexivity; discriminate.
Defined.

(** ** Bit-level bounds *)

Lemma lor_below a b n :
  0 <= a < 2 ^ n -> 0 <= b < 2 ^ n -> 0 <= Z.lor a b < 2 ^ n.
Proof.
  intros Ha Hb.
  assert (Hnn : 0 <= Z.lor a b) by (apply Z.lor_nonneg; lia).
  split; [exact Hnn|].
  destruct (Z.eq_dec (Z.lor a b) 0) as [-> | Hne]; [lia|].
  assert (Hn : 0 < n).
  { destruct (Z_lt_le_dec 0 n) as [?|Hn0]; [assumption|].
    exfalso. apply Hne.
    assert (2 ^ n <= 1).
    { destruct (Z.eq_dec n 0) as [-> | ?]; [cbn; lia|].
      rewrite Z.pow_neg_r by lia. lia. }
    assert (a = 0) as -> by lia. assert (b = 0) as -> by lia. reflexivity. }
  apply Z.log2_lt_pow2; [lia|].
  rewrite Z.log2_lor by lia.
  apply Z.max_lub_lt.
  - destruct (Z.eq_dec a 0) as [-> | ?]; [cbn; lia|]. apply Z.log2_lt_pow2; lia.
  - destruct (Z.eq_dec b 0) as [-> | ?]; [cbn; lia|]. apply Z.log2_lt_pow2; lia.
Qed.

Lemma shiftl_below b m n :
  0 <= m -> 0 <= n -> 0 <= b < 2 ^ m -> 0 <= Z.shiftl b n < 2 ^ (m + n).
Proof.
  intros Hm Hn Hb. rewrite Z.shiftl_mul_pow2 by lia.
  rewrite Z.pow_add_r by lia.
  assert (0 < 2 ^ n) by (apply Z.pow_pos_nonneg; lia).
  nia.
Qed.

Lemma shiftr_below b m s :
  0 <= s <= m -> 0 <= b < 2 ^ m -> 0 <= Z.shiftr b s < 2 ^ (m - s).
Proof.
  intros Hs Hb. rewrite Z.shiftr_div_pow2 by lia.
  assert (0 < 2 ^ s) by (apply Z.pow_pos_nonneg; lia).
  split.
  - apply Z.div_pos; lia.
  - apply Z.div_lt_upper_bound; [lia|].
    rewrite <- Z.pow_add_r by lia. replace (s + (m - s)) with m by lia. lia.
Qed.

Lemma pow2_le_mono a b : 0 <= a <= b -> 2 ^ a <= 2 ^ b.
Proof. intros H. apply Z.pow_le_mono_r; lia. Qed.

Lemma is_byte_range b : is_byte b = true <-> 0 <= b < 2 ^ 8.
Proof.
  unfold is_byte. rewrite andb_true_iff, Z.leb_le, Z.ltb_lt.
  change (2 ^ 8) with 256. reflexivity.
Qed.

Lemma bytes_ok_Forall bs : bytes_ok bs = true <-> Forall (fun b => 0 <= b < 2 ^ 8) bs.
Proof.
  unfold bytes_ok. rewrite forallb_forall, Forall_forall.
  split; intros H b Hb; apply is_byte_range, H; apply list_elem_of_In; assumption.
Qed.

Lemma whole_bytes_cons s b l :
  whole_bytes s (b :: l) = Z.lor (Z.shiftl b (8 * Z.of_nat s)) (whole_bytes (S s) l).
Proof.
  unfold whole_bytes. rewrite imap_cons. cbn [foldr].
  f_equal; [do 2 f_equal; lia|].
  f_equal. apply imap_ext. intros i x _. cbn. do 2 f_equal. lia.
Qed.

Lemma whole_bytes_below l : forall s,
  Forall (fun b => 0 <= b < 2 ^ 8) l ->
  0 <= whole_bytes s l < 2 ^ (8 * Z.of_nat (s + length l)).
Proof.
  induction l as [|b l IH]; intros s Hl.
  - unfold whole_bytes; cbn. split; [lia|]. apply Z.pow_pos_nonneg; lia.
  - rewrite whole_bytes_cons. inversion Hl as [|? ? Hb Hl']; subst.
    apply lor_below.
    + pose proof (shiftl_below b 8 (8 * Z.of_nat s) ltac:(lia) ltac:(lia) Hb) as Hs.
      pose proof (pow2_le_mono (8 + 8 * Z.of_nat s) (8 * Z.of_nat (s + length (b :: l)))) as Hm.
      cbn [length] in *. lia.
    + specialize (IH (S s) Hl').
      replace (s + length (b :: l))%nat with (S s + length l)%nat by (cbn; lia).
      exact IH.
Qed.

(** ** The unsigned reconstruction *)

Lemma fold_whole_bytes x : forall k s acc,
  (s + k <= length x)%nat ->
  fold_range (Z.of_nat <$> seq s k) (or_whole_byte x) acc
  = Ok (Z.lor acc (whole_bytes s (take k (drop s x)))).
Proof.
  induction k as [|k IH]; intros s acc Hlen.
  - cbn. unfold whole_bytes. cbn. rewrite Z.lor_0_r. reflexivity.
  - cbn [seq fmap list_fmap fold_range].
    destruct (index_in_range x (Z.of_nat s)) as (b & Hb & Hib);
      [unfold Py.len; lia|].
    rewrite Nat2Z.id in Hb.
    assert (Hstep : or_whole_byte x (Z.of_nat s) acc
                    = Ok (Z.lor acc (Z.shiftl b (Z.of_nat s * 8))))
      by (unfold or_whole_byte; rewrite Hib; reflexivity).
    rewrite Hstep. cbn [mbind result_bind].
    rewrite IH by lia.
    rewrite (drop_S _ _ _ Hb). cbn [take]. rewrite whole_bytes_cons.
    rewrite Z.lor_assoc.
    replace (Z.of_nat s * 8) with (8 * Z.of_nat s) by lia. reflexivity.
Qed.

Lemma slice_window {A} (l : list A) (a k : Z) :
  0 <= a -> 0 <= k -> a + k <= Py.len l ->
  Py.slice l a (a + k) = take (Z.to_nat k) (drop (Z.to_nat a) l) /\
  Py.len (Py.slice l a (a + k)) = k.
Proof.
  unfold Py.len, Py.slice, Py.clamp. intros Ha Hk Hfit.
  destruct (a <? 0) eqn:E1; [lia|].
  destruct (a + k <? 0) eqn:E2; [lia|].
  rewrite !Z.min_l by lia.
  replace (a + k - a) with k by lia.
  split; [reflexivity|].
  rewrite length_take, length_drop. lia.
Qed.

Lemma final_shift bit_length :
  Z.land (8 - bit_length mod 8) 7 = 8 - ((bit_length - 1) mod 8 + 1).
Proof.
  change 7 with (Z.ones 3). rewrite Z.land_ones by lia. change (2 ^ 3) with 8.
  Z.to_euclidean_division_equations. lia.
Qed.

Lemma _unsigned_from_bytes_total (x : list Z) (bit_length : Z) :
  bytes_ok x = true ->
  1 <= bit_length ->
  (bit_length + 7) / 8 <= Py.len x ->
  _unsigned_from_bytes x bit_length = Ok (justified_aligned_unsigned x bit_length) /\
  0 <= justified_aligned_unsigned x bit_length < 2 ^ bit_length.
Proof.
  intros Hx Hbl Hlen.
  set (n := (bit_length + 7) / 8) in *.
  assert (Hn : 1 <= n /\ 8 * (n - 1) < bit_length <= 8 * n)
    by (subst n; Z.to_euclidean_division_equations; lia).
  set (shift := 8 - ((bit_length - 1) mod 8 + 1)).
  assert (Hshift : 0 <= shift <= 7 /\ bit_length = 8 * (n - 1) + (8 - shift))
    by (subst n shift; Z.to_euclidean_division_equations; lia).
  apply bytes_ok_Forall in Hx.
  destruct (index_in_range x (n - 1)) as (xl & Hxl & Hixl); [lia|].
  assert (Hbyte : 0 <= xl < 2 ^ 8).
  { rewrite Forall_forall in Hx. apply Hx. eapply list_elem_of_lookup_2, Hxl. }
  assert (Hvalue : justified_aligned_unsigned x bit_length
                   = Z.lor (whole_bytes 0 (take (Z.to_nat (n - 1)) x))
                       (Z.shiftl (Z.shiftr xl shift) (8 * (n - 1)))).
  { unfold justified_aligned_unsigned, reconstruct. fold n. fold shift.
    rewrite (list_lookup_total_correct _ _ _ Hxl). reflexivity. }
  assert (Hrange : 0 <= justified_aligned_unsigned x bit_length < 2 ^ bit_length).
  { rewrite Hvalue. apply lor_below.
    - pose proof (whole_bytes_below (take (Z.to_nat (n - 1)) x) 0
                    (Forall_take _ _ _ Hx)) as Hw.
      rewrite length_take in Hw. unfold Py.len in Hlen.
      replace (8 * Z.of_nat (0 + Z.to_nat (n - 1) `min` length x)) with (8 * (n - 1)) in Hw by lia.
      pose proof (pow2_le_mono (8 * (n - 1)) bit_length). lia.
    - pose proof (shiftr_below xl 8 shift ltac:(lia) Hbyte) as Hr.
      pose proof (shiftl_below _ (8 - shift) (8 * (n - 1)) ltac:(lia) ltac:(lia) Hr) as Hl.
      replace (8 - shift + 8 * (n - 1)) with bit_length in Hl by lia. exact Hl. }
  split; [|exact Hrange].
  unfold _unsigned_from_bytes. fold n.
  assert (Hc1 : (bit_length >=? 1) = true) by lia.
  assert (Hc2 : (n >? 0) = true) by lia.
  assert (Hc3 : (Py.len x >=? n) = true) by lia.
  rewrite Hc1, Hc2, Hc3. cbn [check mbind result_bind].
  unfold Py.range.
  rewrite (fold_whole_bytes x (Z.to_nat (n - 1)) 0 0) by (unfold Py.len in Hlen; lia).
  cbn [mbind result_bind]. rewrite Hixl. cbn [mbind result_bind].
  rewrite final_shift. fold shift.
  rewrite Z.lor_0_l, drop_0.
  replace ((n - 1) * 8) with (8 * (n - 1)) by lia.
  rewrite <- Hvalue.
  assert (Hc4 : (0 <=? justified_aligned_unsigned x bit_length)
                && (justified_aligned_unsigned x bit_length <? 2 ^ bit_length) = true)
    by (apply andb_true_iff; split; lia).
  rewrite Hc4. reflexivity.
Qed.

Lemma aligned_byte_offset d :
  _bit_offset d mod 8 = 0 -> _bit_offset d = 8 * _byte_offset d.
Proof.
  intros H. unfold _byte_offset.
  pose proof (Z.div_mod (_bit_offset d) 8 ltac:(lia)). lia.
Qed.

(** C3 (amended): for [bit_length >= 1] at a byte-aligned cursor with at
    least [bit_length] bits remaining, the aligned unsigned read succeeds,
    moves the cursor by [bit_length], and returns the integer rebuilt from
    the next [ceil(bit_length/8)] bytes: byte [i] but the last shifted left
    by [8*i], the last byte contributing its high [(bit_length-1) mod 8 + 1]
    bits, shifted right to justify.  That is [bit_length mod 8] bits when
    [bit_length] is not a multiple of eight, and all eight bits when it is.
    The result lies in [0, 2^bit_length). *)
Theorem fetch_aligned_unsigned_layout (d : Deserializer) (bit_length : Z) :
  1 <= bit_length ->
  0 <= _bit_offset d ->
  _bit_offset d mod 8 = 0 ->
  bit_length <= remaining_bit_length d ->
  bytes_ok (_buf d) = true ->
  let bs := take (Z.to_nat ((bit_length + 7) / 8))
              (drop (Z.to_nat (_byte_offset d)) (_buf d)) in
  fetch_aligned_unsigned bit_length d
  = (Ok (justified_aligned_unsigned bs bit_length), advanced d bit_length) /\
  0 <= justified_aligned_unsigned bs bit_length < 2 ^ bit_length /\
  (bit_length mod 8 <> 0 ->
   justified_aligned_unsigned bs bit_length = spec_aligned_unsigned bs bit_length).
Proof.
  intros Hbl Hoff Haligned Hrem Hbytes bs.
  pose proof (aligned_byte_offset d Haligned) as Hq.
  set (n := (bit_length + 7) / 8) in *.
  assert (Hn : 1 <= n /\ 8 * (n - 1) < bit_length <= 8 * n)
    by (subst n; Z.to_euclidean_division_equations; lia).
  assert (Hfit : _byte_offset d + n <= Py.len (_buf d)).
  { unfold remaining_bit_length, _buf_bit_length in Hrem. lia. }
  destruct (slice_window (_buf d) (_byte_offset d) n) as [Hslice Hlen]; [lia..|].
  fold bs in Hslice.
  assert (Hbs : bytes_ok bs = true).
  { apply bytes_ok_Forall. subst bs. apply Forall_take, Forall_drop.
    apply bytes_ok_Forall. exact Hbytes. }
  destruct (_unsigned_from_bytes_total bs bit_length Hbs Hbl) as [Hvalue Hrange].
  { fold n. rewrite <- Hslice. lia. }
  split; [|split; [exact Hrange|]].
  - unfold fetch_aligned_unsigned. rewrite bind_self.
    rewrite bind_assert by (apply Z.eqb_eq; exact Haligned).
    fold n. rewrite Hslice.
    rewrite Hslice in Hlen.
    destruct (Py.len bs * 8 <? bit_length) eqn:E; [lia|].
    rewrite bind_bit_offset_add. unfold lift. rewrite Hvalue. reflexivity.
  - intros Hmod. unfold justified_aligned_unsigned, spec_aligned_unsigned.
    f_equal. Z.to_euclidean_division_equations. lia.
Qed.

Lemma fetch_aligned_unsigned_layout_witness :
  fetch_aligned_unsigned 12 (advanced (new little [0; 124; 218; 224; 218; 190]) 16)
  = (Ok 3802, advanced (new little [0; 124; 218; 224; 218; 190]) 28) /\
  0 <= 3802 < 2 ^ 12 /\
  (12 mod 8 <> 0 -> 3802 = spec_aligned_unsigned [218; 224] 12).
Proof.
  apply (fetch_aligned_unsigned_layout
           (advanced (new little [0; 124; 218; 224; 218; 190]) 16) 12);
    vm_compute; try reflexivity; discriminate.
Defined.

(** C3 as stated does not hold: with [bit_length = 16], a multiple of
    eight, the final byte contributes all eight bits and not its high
    [16 mod 8 = 0] bits; the read of the test vector [DA BE] yields 0xBEDA
    where the stated layout gives 0xDA. *)
Lemma spec_aligned_unsigned_counterexample :
  ~ (forall (d : Deserializer) (bit_length : Z),
       1 <= bit_length ->
       0 <= _bit_offset d ->
       _bit_offset d mod 8 = 0 ->
       bit_length <= remaining_bit_length d ->
       bytes_ok (_buf d) = true ->
       let bs := take (Z.to_nat ((bit_length + 7) / 8))
                   (drop (Z.to_nat (_byte_offset d)) (_buf d)) in
       fst (fetch_aligned_unsigned bit_length d) = Ok (spec_aligned_unsigned bs bit_length)).
Proof.
  intros H.
  specialize (H (new little [218; 190]) 16).
  assert (Hfalse : @Ok Z 48858 = Ok 218); [|discriminate Hfalse].
  apply H; vm_compute; try reflexivity; discriminate.
Qed.

(** ** Integer ranges *)

Lemma result_bind_Ok_inv {A B} (r : result A) (k : A -> result B) b :
  r ≫= k = Ok b -> exists a, r = Ok a /\ k a = Ok b.
Proof.
  destruct r as [a|e]; cbn; intros H; [|discriminate H]. exists a. auto.
Qed.

Lemma check_Ok_inv b u : check b = Ok u -> b = true.
Proof. destruct b; cbn; [reflexivity | discriminate]. Qed.

Lemma _unsigned_from_bytes_Ok x bit_length v :
  _unsigned_from_bytes x bit_length = Ok v ->
  1 <= bit_length /\ 0 <= v < 2 ^ bit_length.
Proof.
  unfold _unsigned_from_bytes. intros H.
  repeat match type of H with
  | _ ≫= _ = Ok _ =>
      let a := fresh "a" in let Ha := fresh "Ha" in
      apply result_bind_Ok_inv in H as (a & Ha & H)
  end.
  inversion H; subst.
  repeat match goal with
  | Hc : check _ = Ok _ |- _ => apply check_Ok_inv in Hc
  end.
  reflect_tests. lia.
Qed.

Lemma twos_complement_range u bit_length :
  2 <= bit_length -> 0 <= u < 2 ^ bit_length ->
  - 2 ^ (bit_length - 1) <= twos_complement u bit_length < 2 ^ (bit_length - 1) /\
  twos_complement u bit_length mod 2 ^ bit_length = u.
Proof.
  intros Hbl Hu. unfold twos_complement.
  assert (Hpow : 2 ^ bit_length = 2 * 2 ^ (bit_length - 1)).
  { replace bit_length with (Z.succ (bit_length - 1)) at 1 by lia.
    apply Z.pow_succ_r. lia. }
  destruct (u >=? 2 ^ (bit_length - 1)) eqn:E; reflect_tests.
  - split; [lia|].
    replace (u - 2 ^ bit_length) with (u + (-1) * 2 ^ bit_length) by lia.
    rewrite Z.mod_add by lia. apply Z.mod_small. lia.
  - split; [lia|]. apply Z.mod_small. lia.
Qed.

(** C10: a successful unsigned fetch of [bit_length] bits, aligned or not,
    returns a value in [0, 2^bit_length); a successful signed fetch has
    [bit_length >= 2], is the two's-complement reinterpretation of the
    unsigned fetch of the same width from the same state, and lies in
    [-2^(bit_length-1), 2^(bit_length-1)). *)
Theorem fetched_integer_ranges (d : Deserializer) (bit_length v : Z) (d' : Deserializer) :
  (fetch_aligned_unsigned bit_length d = (Ok v, d') \/
   fetch_unaligned_unsigned bit_length d = (Ok v, d') ->
   0 <= v < 2 ^ bit_length) /\
  (fetch_aligned_signed bit_length d = (Ok v, d') ->
   2 <= bit_length /\
   - 2 ^ (bit_length - 1) <= v < 2 ^ (bit_length - 1) /\
   exists u, fetch_aligned_unsigned bit_length d = (Ok u, d') /\
             0 <= u < 2 ^ bit_length /\
             v = twos_complement u bit_length /\ v mod 2 ^ bit_length = u) /\
  (fetch_unaligned_signed bit_length d = (Ok v, d') ->
   2 <= bit_length /\
   - 2 ^ (bit_length - 1) <= v < 2 ^ (bit_length - 1) /\
   exists u, fetch_unaligned_unsigned bit_length d = (Ok u, d') /\
             0 <= u < 2 ^ bit_length /\
             v = twos_complement u bit_length /\ v mod 2 ^ bit_length = u).
Proof.
  assert (Haligned : forall u d1, fetch_aligned_unsigned bit_length d = (Ok u, d1) ->
                                  0 <= u < 2 ^ bit_length).
  { intros u d1 H. apply fetch_aligned_unsigned_Ok in H as [_ H].
    apply _unsigned_from_bytes_Ok in H. tauto. }
  assert (Hunaligned : forall u d1, fetch_unaligned_unsigned bit_length d = (Ok u, d1) ->
                                    0 <= u < 2 ^ bit_length).
  { intros u d1 H. apply fetch_unaligned_unsigned_Ok in H as (_ & bs & d2 & _ & H).
    apply _unsigned_from_bytes_Ok in H. tauto. }
  split; [|split].
  - intros [H | H]; eauto.
  - intros H. apply fetch_aligned_signed_Ok in H as (Hbl & u & Hu & ->).
    pose proof (Haligned u d' Hu) as Hrange.
    destruct (twos_complement_range u bit_length Hbl Hrange) as [Hs Hmod].
    split; [exact Hbl|]. split; [exact Hs|]. exists u. auto.
  - intros H. apply fetch_unaligned_signed_Ok in H as (Hbl & u & Hu & ->).
    pose proof (Hunaligned u d' Hu) as Hrange.
    destruct (twos_complement_range u bit_length Hbl Hrange) as [Hs Hmod].
    split; [exact Hbl|]. split; [exact Hs|]. exists u. auto.
Qed.

Lemma fetched_integer_ranges_witness :
  0 <= 349 < 2 ^ 9 /\ 0 <= 338 < 2 ^ 9 /\
  - 2 ^ (9 - 1) <= -163 < 2 ^ (9 - 1) /\
  - 2 ^ (9 - 1) <= -174 < 2 ^ (9 - 1).
Proof.
  split; [|split; [|split]].
  - apply (proj1 (fetched_integer_ranges (advanced (new little test_buffer) 8) 9 349
                    (advanced (new little test_buffer) 17))).
    left. vm_compute. reflexivity.
  - apply (proj1 (fetched_integer_ranges (advanced (new little test_buffer) 3) 9 338
                    (advanced (new little test_buffer) 12))).
    right. vm_compute. reflexivity.
  - apply (proj1 (proj2 (fetched_integer_ranges (advanced (new little test_buffer) 8) 9 (-163)
                           (advanced (new little test_buffer) 17)))).
    vm_compute. reflexivity.
  - apply (proj2 (proj2 (fetched_integer_ranges (advanced (new little test_buffer) 3) 9 (-174)
                           (advanced (new little test_buffer) 12)))).
    vm_compute. reflexivity.
Defined.

(** ** The unaligned unsigned read never trips its assertions *)

Lemma index_Ok_elem {A} (l : list A) (i : Z) (x : A) :
  Py.index l i = Ok x -> x ∈ l.
Proof.
  unfold Py.index. destruct (_ && _); [|discriminate].
  destruct (l !! _) as [y|] eqn:E; [|discriminate].
  intros H. inversion H; subst. eapply list_elem_of_lookup_2, E.
Qed.

Lemma unaligned_byte_below a b left :
  1 <= left <= 7 -> 0 <= b < 2 ^ 8 ->
  0 <= Z.lor (Z.land (Z.shiftl a left) 255) (Z.shiftr b (8 - left)) < 2 ^ 8.
Proof.
  intros Hleft Hb. apply lor_below.
  - change 255 with (Z.ones 8). rewrite Z.land_ones by lia.
    apply Z.mod_pos_bound. lia.
  - pose proof (shiftr_below b 8 (8 - left) ltac:(lia) Hb) as Hr.
    pose proof (pow2_le_mono (8 - (8 - left)) 8 ltac:(lia)). lia.
Qed.

Lemma masked_byte_below a left : 0 <= Z.land (Z.shiftl a left) 255 < 2 ^ 8.
Proof.
  change 255 with (Z.ones 8). rewrite Z.land_ones by lia.
  apply Z.mod_pos_bound. lia.
Qed.

Lemma unaligned_loop_bytes left idx : forall out d out' d',
  1 <= left <= 7 ->
  Forall (fun b => 0 <= b < 2 ^ 8) (_buf d) ->
  Forall (fun b => 0 <= b < 2 ^ 8) out ->
  for_each idx (unaligned_byte_step left (8 - left)) out d = (Ok out', d') ->
  Forall (fun b => 0 <= b < 2 ^ 8) out'.
Proof.
  induction idx as [|i idx IH]; intros out d out' d' Hleft Hbuf Hout H;
    cbn [for_each] in H.
  - steps_Ok. exact Hout.
  - apply bind_Ok_inv in H as (out1 & d1 & Hstep & H).
    pose proof Hstep as Hmove. apply unaligned_byte_step_Ok in Hmove as [-> _].
    apply (IH out1 (advanced d 8) out' d' Hleft Hbuf); [|exact H].
    unfold unaligned_byte_step in Hstep. steps_Ok.
    apply Forall_insert; [exact Hout|].
    apply unaligned_byte_below; [exact Hleft|].
    rewrite Forall_forall in Hbuf. apply Hbuf. eapply index_Ok_elem. eassumption.
Qed.

Lemma fetch_unaligned_bytes_are_bytes count d out d' :
  fetch_unaligned_bytes count d = (Ok out, d') ->
  bytes_ok (_buf d) = true ->
  bytes_ok out = true.
Proof.
  intros H Hbuf. apply bytes_ok_Forall. apply bytes_ok_Forall in Hbuf.
  unfold fetch_unaligned_bytes in H.
  destruct (count >? 0); [|steps_Ok; constructor].
  apply bind_Ok_inv in H as (d0 & d1 & Hself & H). steps_Ok.
  destruct (_bit_offset d1 mod 8 =? 0) eqn:E; cbn [negb] in H.
  - unfold fetch_aligned_bytes in H. steps_Ok.
    match type of H with context [negb ?c] => destruct c end; cbn [negb] in H; steps_Ok.
    unfold Py.slice. apply Forall_take, Forall_drop. exact Hbuf.
  - steps_Ok. reflect_tests.
    match goal with
    | Hloop : for_each _ _ _ _ = _ |- _ =>
        pose proof Hloop as Hmove; apply unaligned_loop_Ok in Hmove as [-> _];
        eapply unaligned_loop_bytes in Hloop;
          [|lia|exact Hbuf|apply Forall_replicate; lia]
    end.
    apply Forall_insert; [assumption|].
    match goal with
    | Htry : try_except_IndexError _ _ _ = _ |- _ =>
        apply try_except_IndexError_Ok in Htry as [Hread | (d4 & _ & Hpass)]
    end.
    + steps_Ok. apply unaligned_byte_below; [lia|].
      rewrite Forall_forall in Hbuf. apply Hbuf. eapply index_Ok_elem. eassumption.
    + steps_Ok. apply masked_byte_below.
Qed.

Lemma fetch_aligned_bytes_total count d :
  0 <= _bit_offset d -> _bit_offset d mod 8 = 0 -> 0 <= count ->
  _byte_offset d + count <= Py.len (_buf d) ->
  exists out, fetch_aligned_bytes count d = (Ok out, advanced d (count * 8)) /\
              Py.len out = count.
Proof.
  intros Hoff Haligned Hcount Hfit.
  pose proof (aligned_byte_offset d Haligned) as Hq.
  destruct (slice_window (_buf d) (_byte_offset d) count) as [Hslice Hlen]; [lia..|].
  exists (Py.slice (_buf d) (_byte_offset d) (_byte_offset d + count)).
  split; [|exact Hlen].
  unfold fetch_aligned_bytes. rewrite bind_self.
  rewrite bind_assert by (apply Z.eqb_eq; exact Haligned).
  rewrite Hlen, Z.eqb_refl. cbn [negb]. reflexivity.
Qed.

(** With the length validated, the unaligned unsigned read returns a value
    and moves the cursor by [bit_length], whatever the alignment. *)
Lemma fetch_unaligned_unsigned_total (d : Deserializer) (bit_length : Z) :
  1 <= bit_length ->
  0 <= _bit_offset d ->
  bit_length <= remaining_bit_length d ->
  bytes_ok (_buf d) = true ->
  exists v, fetch_unaligned_unsigned bit_length d = (Ok v, advanced d bit_length) /\
            0 <= v < 2 ^ bit_length.
Proof.
  intros Hbl Hoff Hrem Hbuf.
  set (n := (bit_length + 7) / 8).
  assert (Hn : 1 <= n /\ 8 * (n - 1) < bit_length <= 8 * n)
    by (subst n; Z.to_euclidean_division_equations; lia).
  assert (Hbytes : exists out, fetch_unaligned_bytes n d = (Ok out, advanced d (n * 8)) /\
                               Py.len out = n).
  { destruct (Z.eq_dec (_bit_offset d mod 8) 0) as [Haligned | Hmis].
    - destruct (fetch_aligned_bytes_total n d Hoff Haligned) as (out & Hout & Hlen).
      + lia.
      + pose proof (aligned_byte_offset d Haligned).
        unfold remaining_bit_length, _buf_bit_length in Hrem. lia.
      + exists out. split; [|exact Hlen].
        unfold fetch_unaligned_bytes. destruct (n >? 0) eqn:E; [|lia].
        rewrite bind_self. apply Z.eqb_eq in Haligned. rewrite Haligned. exact Hout.
    - destruct (unaligned_copy_validated d n bit_length Hoff Hmis)
        as (out & a & Hout & Hlen & _); [lia | reflexivity | exact Hrem |].
      exists out. split; assumption. }
  destruct Hbytes as (out & Hout & Hlen).
  pose proof (fetch_unaligned_bytes_are_bytes _ _ _ _ Hout Hbuf) as Hok.
  destruct (_unsigned_from_bytes_total out bit_length Hok Hbl) as [Hvalue Hrange];
    [fold n; lia|].
  exists (justified_aligned_unsigned out bit_length). split; [|exact Hrange].
  unfold fetch_unaligned_unsigned. fold n.
  rewrite (bind_Ok _ _ _ _ _ Hout).
  rewrite bind_assert by (apply Z.eqb_eq; exact Hlen).
  rewrite bind_assert by (apply andb_true_iff; split; lia).
  rewrite bind_bit_offset_add. unfold lift. rewrite Hvalue.
  f_equal. rewrite advanced_advanced. apply advanced_eq. lia.
Qed.

(** ** What no method ever does: touch the buffer *)

Lemma moves_ret {A} (a : A) : moves_cursor_only (ret a).
Proof. intros d r d' H. inversion H; subst. exists 0. unfold advanced. destruct d'; cbn. f_equal. lia. Qed.

Lemma moves_raise {A} (e : exn) : moves_cursor_only (@raise A e).
Proof. intros d r d' H. inversion H; subst. exists 0. unfold advanced. destruct d'; cbn. f_equal. lia. Qed.

Lemma moves_self : moves_cursor_only self.
Proof. intros d r d' H. inversion H; subst. exists 0. unfold advanced. destruct d'; cbn. f_equal. lia. Qed.

Lemma moves_lift {A} (r : result A) : moves_cursor_only (lift r).
Proof. intros d r' d' H. inversion H; subst. exists 0. unfold advanced. destruct d'; cbn. f_equal. lia. Qed.

Lemma moves_assert b : moves_cursor_only (assert b).
Proof. destruct b; [apply moves_ret | apply moves_raise]. Qed.

Lemma moves_bit_offset_add n : moves_cursor_only (bit_offset_add n).
Proof. intros d r d' H. inversion H; subst. exists n. reflexivity. Qed.

Lemma moves_bind {A B} (m : M A) (k : A -> M B) :
  moves_cursor_only m -> (forall a, moves_cursor_only (k a)) ->
  moves_cursor_only (bind m k).
Proof.
  intros Hm Hk d r d' H. unfold bind in H.
  destruct (m d) as [[a|e] d1] eqn:E; destruct (Hm _ _ _ E) as [n ->].
  - destruct (Hk a _ _ _ H) as [n' ->]. exists (n + n'). apply advanced_advanced.
  - inversion H; subst. exists n. reflexivity.
Qed.

Lemma moves_try {A} (m h : M A) :
  moves_cursor_only m -> moves_cursor_only h ->
  moves_cursor_only (try_except_IndexError m h).
Proof.
  intros Hm Hh d r d' H. unfold try_except_IndexError in H.
  destruct (m d) as [[a|e] d1] eqn:E; destruct (Hm _ _ _ E) as [n ->].
  - inversion H; subst. exists n. reflexivity.
  - destruct e; try (inversion H; subst; exists n; reflexivity).
    destruct (Hh _ _ _ H) as [n' ->]. exists (n + n'). apply advanced_advanced.
Qed.

Lemma moves_for_each {S} (body : Z -> S -> M S) idx :
  (forall i acc, moves_cursor_only (body i acc)) ->
  forall acc, moves_cursor_only (for_each idx body acc).
Proof.
  intros Hbody. induction idx as [|i idx IH]; intros acc; cbn [for_each].
  - apply moves_ret.
  - apply moves_bind; [apply Hbody | exact IH].
Qed.

Lemma moves_returning {A} (wrap : A -> value) (m : M A) :
  moves_cursor_only m -> moves_cursor_only (returning wrap m).
Proof. intros H. apply moves_bind; [exact H | intros a; apply moves_ret]. Qed.

Create HintDb cursor discriminated.
#[local] Hint Resolve moves_ret moves_raise moves_self moves_lift moves_assert
  moves_bit_offset_add moves_returning : cursor.

(** Walk through a method body, one construct at a time. *)
Ltac cursor_only :=
  repeat first
    [ progress cbv zeta
    | apply moves_bind; [|intros ?]
    | apply moves_try
    | apply moves_for_each; intros ? ?
    | match goal with
      | |- moves_cursor_only (if ?c then _ else _) => destruct c
      | |- moves_cursor_only (match ?x with _ => _ end) => destruct x
      end
    | solve [auto with cursor] ].

Lemma moves_require_remaining_bit_length n :
  moves_cursor_only (require_remaining_bit_length n).
Proof. unfold require_remaining_bit_length. cursor_only. Qed.

Lemma moves_skip_bits n : moves_cursor_only (skip_bits n).
Proof. unfold skip_bits. cursor_only. Qed.

Lemma moves_fetch_aligned_array_of_bits n : moves_cursor_only (fetch_aligned_array_of_bits n).
Proof. unfold fetch_aligned_array_of_bits. cursor_only. Qed.

Lemma moves_fetch_aligned_bytes n : moves_cursor_only (fetch_aligned_bytes n).
Proof. unfold fetch_aligned_bytes. cursor_only. Qed.

Lemma moves_fetch_aligned_u8 : moves_cursor_only fetch_aligned_u8.
Proof. unfold fetch_aligned_u8. cursor_only. Qed.
#[local] Hint Resolve moves_fetch_aligned_bytes moves_fetch_aligned_u8 : cursor.

Lemma moves_fetch_aligned_u16 : moves_cursor_only fetch_aligned_u16.
Proof. unfold fetch_aligned_u16. cursor_only. Qed.
#[local] Hint Resolve moves_fetch_aligned_u16 : cursor.

Lemma moves_fetch_aligned_u32 : moves_cursor_only fetch_aligned_u32.
Proof. unfold fetch_aligned_u32. cursor_only. Qed.
#[local] Hint Resolve moves_fetch_aligned_u32 : cursor.

Lemma moves_fetch_aligned_u64 : moves_cursor_only fetch_aligned_u64.
Proof. unfold fetch_aligned_u64. cursor_only. Qed.
#[local] Hint Resolve moves_fetch_aligned_u64 : cursor.

Lemma moves_fetch_aligned_unsigned n : moves_cursor_only (fetch_aligned_unsigned n).
Proof. unfold fetch_aligned_unsigned. cursor_only. Qed.
#[local] Hint Resolve moves_fetch_aligned_unsigned : cursor.

Lemma moves_unaligned_byte_step l r i out : moves_cursor_only (unaligned_byte_step l r i out).
Proof. unfold unaligned_byte_step. cursor_only. Qed.
#[local] Hint Resolve moves_unaligned_byte_step : cursor.

Lemma moves_fetch_unaligned_bytes n : moves_cursor_only (fetch_unaligned_bytes n).
Proof. unfold fetch_unaligned_bytes. cursor_only. Qed.
#[local] Hint Resolve moves_fetch_unaligned_bytes : cursor.

Lemma moves_fetch_unaligned_unsigned n : moves_cursor_only (fetch_unaligned_unsigned n).
Proof. unfold fetch_unaligned_unsigned. cursor_only. Qed.
#[local] Hint Resolve moves_fetch_unaligned_unsigned : cursor.

Lemma moves_perform op : moves_cursor_only (perform op).
Proof.
  destruct op; cbn [perform]; apply moves_returning;
    first [ solve [auto with cursor]
          | unfold fetch_aligned_array_of_standard_bit_length_primitives,
              fetch_unaligned_array_of_standard_bit_length_primitives,
              fetch_aligned_array_of_bits, fetch_unaligned_array_of_bits,
              fetch_aligned_i8, fetch_aligned_i16, fetch_aligned_i32, fetch_aligned_i64,
              fetch_aligned_f16, fetch_aligned_f32, fetch_aligned_f64,
              fetch_aligned_signed, fetch_unaligned_signed,
              fetch_unaligned_f16, fetch_unaligned_f32, fetch_unaligned_f64,
              fetch_unaligned_bit;
            cursor_only ].
Qed.

(** X1: whatever a method does and however it ends, normally or with any
    exception, the deserializer it leaves behind has the same buffer and
    class; only the cursor may have moved, so that consumed plus remaining
    bits always add up to the buffer length. *)
Theorem buffer_never_mutated (op : fetch) (n : Z) (d : Deserializer) :
  let kept := fun d' =>
    _buf d' = _buf d /\ _cls d' = _cls d /\
    consumed_bit_length d' + remaining_bit_length d' = _buf_bit_length d in
  kept (snd (perform op d)) /\
  kept (snd (skip_bits n d)) /\
  kept (snd (require_remaining_bit_length n d)).
Proof.
  intros kept.
  assert (Hkeep : forall A (m : M A), moves_cursor_only m -> kept (snd (m d))).
  { intros A m Hm. subst kept. cbn beta.
    destruct (m d) as [r d'] eqn:E. destruct (Hm _ _ _ E) as [k ->].
    unfold consumed_bit_length, remaining_bit_length, _buf_bit_length, advanced; cbn.
    repeat split; lia. }
  split; [|split]; apply Hkeep.
  - apply moves_perform.
  - apply moves_skip_bits.
  - apply moves_require_remaining_bit_length.
Qed.

(** ** The bit stream *)

Lemma byte_at_Some buf (j : nat) x : buf !! j = Some x -> byte_at buf j = x.
Proof. unfold byte_at. intros ->. reflexivity. Qed.

Lemma byte_at_None buf (j : nat) : buf !! j = None -> byte_at buf j = 0.
Proof. unfold byte_at. intros ->. reflexivity. Qed.

Lemma stream_bit_in_byte buf (q : nat) (i : Z) :
  0 <= i < 8 ->
  stream_bit buf (8 * Z.of_nat q + i) = Z.testbit (byte_at buf q) (7 - i).
Proof.
  intros Hi. unfold stream_bit.
  assert (Hdiv : (8 * Z.of_nat q + i) / 8 = Z.of_nat q)
    by (Z.to_euclidean_division_equations; lia).
  assert (Hmod : (8 * Z.of_nat q + i) mod 8 = i)
    by (Z.to_euclidean_division_equations; lia).
  rewrite Hdiv, Hmod, Nat2Z.id. reflexivity.
Qed.

Lemma stream_bits_length buf n : forall k, length (stream_bits buf k n) = n.
Proof. induction n as [|n IH]; intros k; cbn; [reflexivity | rewrite IH; reflexivity]. Qed.

Lemma stream_bits_app buf a b : forall k,
  stream_bits buf k (a + b) = stream_bits buf k a ++ stream_bits buf (k + Z.of_nat a) b.
Proof.
  induction a as [|a IH]; intros k.
  - cbn. rewrite Z.add_0_r. reflexivity.
  - cbn [Nat.add stream_bits app]. rewrite IH. do 3 f_equal. lia.
Qed.

Lemma stream_bits_take buf n m : forall k,
  (m <= n)%nat -> take m (stream_bits buf k n) = stream_bits buf k m.
Proof.
  intros k Hm. replace n with (m + (n - m))%nat by lia.
  rewrite stream_bits_app, take_app_length'; [reflexivity|].
  symmetry. apply stream_bits_length.
Qed.

Lemma byte_bits_stream buf (q : nat) :
  Py.byte_bits (byte_at buf q) = stream_bits buf (8 * Z.of_nat q) 8.
Proof.
  cbn [stream_bits].
  rewrite <- (Z.add_0_r (8 * Z.of_nat q)) at 1.
  rewrite <- !Z.add_assoc. cbn [Z.add Pos.add Pos.succ].
  rewrite !stream_bit_in_byte by lia. reflexivity.
Qed.

Lemma unpackbits_cons x l : Py.unpackbits (x :: l) = Py.byte_bits x ++ Py.unpackbits l.
Proof. reflexivity. Qed.

Lemma byte_bits_length x : length (Py.byte_bits x) = 8%nat.
Proof. reflexivity. Qed.

Lemma unpackbits_length l : length (Py.unpackbits l) = (8 * length l)%nat.
Proof.
  induction l as [|x l IH]; [reflexivity|].
  rewrite unpackbits_cons, length_app, byte_bits_length, IH. cbn [length]. lia.
Qed.

Lemma unpackbits_window buf (n : nat) : forall q : nat,
  (q + n <= length buf)%nat ->
  Py.unpackbits (take n (drop q buf)) = stream_bits buf (8 * Z.of_nat q) (8 * n).
Proof.
  induction n as [|n IH]; intros q Hfit.
  - reflexivity.
  - destruct (lookup_lt_is_Some_2 buf q) as [x Hx]; [lia|].
    rewrite (drop_S _ _ _ Hx). cbn [take]. rewrite unpackbits_cons.
    replace (8 * S n)%nat with (8 + 8 * n)%nat by lia.
    rewrite stream_bits_app, IH by lia.
    rewrite <- (byte_at_Some _ _ _ Hx), byte_bits_stream.
    do 2 f_equal. lia.
Qed.

(** ** Single bits *)

Lemma land_one_bit b p :
  0 <= p -> (Z.land b (Z.shiftl 1 p) =? Z.shiftl 1 p) = Z.testbit b p.
Proof.
  intros Hp. rewrite Z.shiftl_1_l.
  assert (Hland : Z.land b (2 ^ p) = if Z.testbit b p then 2 ^ p else 0).
  { apply Z.bits_inj'. intros n Hn. rewrite Z.land_spec, Z.pow2_bits_eqb by lia.
    destruct (Z.eqb_spec p n) as [-> | Hne].
    - destruct (Z.testbit b n); [|rewrite Z.bits_0; reflexivity].
      rewrite Z.pow2_bits_true by lia. reflexivity.
    - rewrite andb_false_r. destruct (Z.testbit b p); [|rewrite Z.bits_0; reflexivity].
      rewrite Z.pow2_bits_false by lia. reflexivity. }
  rewrite Hland. assert (0 < 2 ^ p) by (apply Z.pow_pos_nonneg; lia).
  destruct (Z.testbit b p); [apply Z.eqb_refl | apply Z.eqb_neq; lia].
Qed.

Lemma single_bit_read (d : Deserializer) :
  0 <= _bit_offset d ->
  (0 < remaining_bit_length d ->
   fetch_unaligned_bit d = (Ok (stream_bit (_buf d) (_bit_offset d)), advanced d 1)) /\
  (remaining_bit_length d <= 0 ->
   fetch_unaligned_bit d = (Raise IndexError, d)).
Proof.
  intros Hoff.
  assert (Hr : 0 <= _bit_offset d mod 8 < 8) by (apply Z.mod_pos_bound; lia).
  assert (Hq : 0 <= _byte_offset d) by (unfold _byte_offset; apply Z.div_pos; lia).
  assert (Hsplit : _bit_offset d = 8 * _byte_offset d + _bit_offset d mod 8)
    by (unfold _byte_offset; apply Z.div_mod; lia).
  assert (Hmask : (1 <=? Z.shiftl 1 (7 - _bit_offset d mod 8))
                  && (Z.shiftl 1 (7 - _bit_offset d mod 8) <=? 128) = true).
  { rewrite Z.shiftl_1_l. apply andb_true_iff. split.
    - apply Z.leb_le. pose proof (Z.pow_pos_nonneg 2 (7 - _bit_offset d mod 8)). lia.
    - apply Z.leb_le. change 128 with (2 ^ 7). apply Z.pow_le_mono_r; lia. }
  unfold remaining_bit_length, _buf_bit_length.
  split; intros Hrem; unfold fetch_unaligned_bit;
    rewrite bind_self; cbv zeta; rewrite (bind_assert _ _ _ Hmask).
  - destruct (index_in_range (_buf d) (_byte_offset d)) as (b & Hb & Hib); [lia|].
    rewrite (bind_lift_Ok _ _ _ b Hib), bind_bit_offset_add.
    unfold ret. rewrite land_one_bit by lia. do 2 f_equal.
    unfold stream_bit. fold (_byte_offset d).
    rewrite (byte_at_Some _ _ _ Hb). reflexivity.
  - destruct (index_past_end (_buf d) (_byte_offset d)) as [_ Hib]; [lia|].
    unfold bind at 1. unfold lift. rewrite Hib. reflexivity.
Qed.

(** X2: a single-bit read inside the buffer returns the stream bit under
    the cursor (most significant bit of a byte first) and moves the cursor by
    one; with the cursor at or past the end it raises IndexError and leaves
    the deserializer as it was. *)
Theorem fetch_unaligned_bit_spec (d : Deserializer) :
  0 <= _bit_offset d ->
  (0 < remaining_bit_length d ->
   fetch_unaligned_bit d = (Ok (stream_bit (_buf d) (_bit_offset d)), advanced d 1)) /\
  (remaining_bit_length d <= 0 ->
   fetch_unaligned_bit d = (Raise IndexError, d)).
Proof. exact (single_bit_read d). Qed.

Lemma fetch_unaligned_bit_spec_witness :
  fetch_unaligned_bit (advanced (new little test_buffer) 27)
  = (Ok (stream_bit test_buffer 27), advanced (advanced (new little test_buffer) 27) 1) /\
  fetch_unaligned_bit (advanced (new little test_buffer) 32)
  = (Raise IndexError, advanced (new little test_buffer) 32).
Proof.
  split.
  - apply (proj1 (fetch_unaligned_bit_spec (advanced (new little test_buffer) 27)
                    ltac:(vm_compute; discriminate))).
    vm_compute. reflexivity.
  - apply (proj2 (fetch_unaligned_bit_spec (advanced (new little test_buffer) 32)
                    ltac:(vm_compute; discriminate))).
    vm_compute. discriminate.
Defined.

(** ** Aligned bit arrays *)

Lemma slice_from_0 {A} (l : list A) (n : Z) :
  0 <= n -> Py.slice l 0 n = take (Z.to_nat n) l.
Proof.
  intros Hn. unfold Py.slice, Py.clamp.
  change (0 <? 0) with false. cbv iota.
  destruct (Z.ltb_spec n 0); [lia|].
  rewrite (Z.min_l 0) by lia. change (Z.to_nat 0) with 0%nat. rewrite drop_0.
  destruct (Z.min_spec n (Z.of_nat (length l))) as [[_ ->] | [Hle ->]].
  - rewrite Z.sub_0_r. reflexivity.
  - rewrite Z.sub_0_r, Nat2Z.id.
    rewrite (take_ge l (length l)) by lia.
    rewrite (take_ge l (Z.to_nat n)) by lia. reflexivity.
Qed.

Lemma slice_length_le {A} (l : list A) (a b : Z) :
  0 <= a -> Py.len (Py.slice l a b) <= Z.max 0 (Py.len l - a).
Proof.
  intros Ha. unfold Py.len, Py.slice, Py.clamp.
  destruct (Z.ltb_spec a 0); [lia|].
  rewrite length_take, length_drop. lia.
Qed.

Lemma aligned_bits_read (d : Deserializer) (count : Z) :
  0 <= _bit_offset d ->
  _bit_offset d mod 8 = 0 ->
  0 <= remaining_bit_length d ->
  fetch_aligned_array_of_bits count d
  = if (0 <=? count) && (count <=? remaining_bit_length d)
    then (Ok (stream_bits (_buf d) (_bit_offset d) (Z.to_nat count)), advanced d count)
    else (Raise IndexError, d).
Proof.
  intros Hoff Haligned Hrem.
  pose proof (aligned_byte_offset d Haligned) as Hq.
  unfold remaining_bit_length, _buf_bit_length in *.
  unfold fetch_aligned_array_of_bits. rewrite bind_self.
  rewrite bind_assert by (apply Z.eqb_eq; exact Haligned).
  cbv zeta.
  set (n := (count + 7) / 8).
  destruct ((0 <=? count) && (count <=? Py.len (_buf d) * 8 - _bit_offset d)) eqn:Eok.
  - apply andb_prop in Eok as [H0 H1]. reflect_tests.
    assert (Hn : 0 <= n /\ 8 * (n - 1) < count <= 8 * n)
      by (subst n; Z.to_euclidean_division_equations; lia).
    destruct (slice_window (_buf d) (_byte_offset d) n) as [Hslice _]; [lia..|].
    rewrite Hslice, slice_from_0 by lia.
    rewrite <- (Z2Nat.id (_byte_offset d)) in Hq by lia.
    rewrite unpackbits_window by (unfold Py.len in *; lia).
    rewrite stream_bits_take by lia.
    rewrite <- Hq.
    assert (Hlen : Py.len (stream_bits (_buf d) (_bit_offset d) (Z.to_nat count)) = count)
      by (unfold Py.len; rewrite stream_bits_length; lia).
    rewrite Hlen, Z.eqb_refl. reflexivity.
  - match goal with |- context [negb (?a =? ?b)] => destruct (Z.eqb_spec a b) as [Heq | Hne] end;
      [|reflexivity].
    exfalso.
    apply andb_false_iff in Eok.
    assert (Hout : 0 <= count) by (rewrite <- Heq; unfold Py.len; lia).
    destruct Eok as [Eok | Eok]; reflect_tests; [lia|].
    rewrite slice_from_0 in Heq by lia.
    pose proof (slice_length_le (_buf d) (_byte_offset d) (_byte_offset d + n) ltac:(lia)) as Hle.
    unfold Py.len in Heq, Hle. rewrite length_take, unpackbits_length in Heq.
    unfold Py.len in *. lia.
Qed.

(** X3: at a byte-aligned cursor inside the buffer, the aligned bit-array
    read of [count] bits succeeds exactly when [0 <= count <= remaining
    bits]; it then returns the next [count] stream bits, most significant
    bit of each byte first, and moves the cursor by [count].  Otherwise
    (negative count included) it raises IndexError and leaves the
    deserializer as it was. *)
Theorem fetch_aligned_array_of_bits_spec (d : Deserializer) (count : Z) :
  0 <= _bit_offset d ->
  _bit_offset d mod 8 = 0 ->
  0 <= remaining_bit_length d ->
  fetch_aligned_array_of_bits count d
  = if (0 <=? count) && (count <=? remaining_bit_length d)
    then (Ok (stream_bits (_buf d) (_bit_offset d) (Z.to_nat count)), advanced d count)
    else (Raise IndexError, d).
Proof. exact (aligned_bits_read d count). Qed.

Lemma fetch_aligned_array_of_bits_spec_witness :
  fetch_aligned_array_of_bits 13 (advanced (new little test_buffer) 16)
  = (Ok (stream_bits test_buffer 16 13), advanced (advanced (new little test_buffer) 16) 13) /\
  fetch_aligned_array_of_bits 17 (advanced (new little test_buffer) 16)
  = (Raise IndexError, advanced (new little test_buffer) 16).
Proof.
  split.
  - apply (fetch_aligned_array_of_bits_spec (advanced (new little test_buffer) 16) 13);
      vm_compute; try reflexivity; discriminate.
  - apply (fetch_aligned_array_of_bits_spec (advanced (new little test_buffer) 16) 17);
      vm_compute; try reflexivity; discriminate.
Defined.

(** ** Unaligned bytes are cut out of the bit stream *)

Lemma index_byte_at (l : list Z) (i : Z) (x : Z) :
  0 <= i -> Py.index l i = Ok x -> byte_at l (Z.to_nat i) = x.
Proof.
  intros Hi. unfold Py.index.
  destruct (Z.ltb_spec i 0); [lia|].
  destruct (_ && _); [|discriminate].
  destruct (l !! Z.to_nat i) as [y|] eqn:E; [|discriminate].
  intros Hx. inversion Hx; subst. apply byte_at_Some. exact E.
Qed.

Lemma unaligned_loop_content left k : forall (s q0 : nat) out d,
  _byte_offset d = Z.of_nat q0 ->
  (q0 + k + 1 <= length (_buf d))%nat ->
  (s + k <= length out)%nat ->
  for_each (Z.of_nat <$> seq s k) (unaligned_byte_step left (8 - left)) out d
  = (Ok (take s out ++ (unaligned_byte (_buf d) left <$> seq q0 k) ++ drop (s + k) out),
     advanced d (8 * Z.of_nat k)).
Proof.
  induction k as [|k IH]; intros s q0 out d Hq Hbuf Hout.
  - cbn [seq fmap list_fmap for_each app]. unfold ret. f_equal.
    + rewrite Nat.add_0_r, take_drop. reflexivity.
    + unfold advanced. destruct d; cbn. f_equal. lia.
  - cbn [seq fmap list_fmap for_each].
    destruct (index_in_range (_buf d) (_byte_offset d)) as (a & _ & Ha);
      [unfold Py.len; lia|].
    destruct (index_in_range (_buf d) (_byte_offset d + 1)) as (b & _ & Hb);
      [unfold Py.len; lia|].
    unfold bind at 1.
    rewrite (unaligned_byte_step_total left (8 - left) (Z.of_nat s) out d a b Ha Hb).
    change (list_fmap nat Z Z.of_nat (seq (S s) k)) with (Z.of_nat <$> seq (S s) k).
    rewrite (IH (S s) (S q0)); cycle 1.
    { rewrite byte_offset_advanced_8. lia. }
    { cbn [_buf advanced]. lia. }
    { rewrite length_insert. lia. }
    f_equal; [|rewrite advanced_advanced; apply advanced_eq; lia].
    f_equal. cbn [_buf advanced].
    assert (Hv : Z.lor (Z.land (Z.shiftl a left) 255) (Z.shiftr b (8 - left))
                 = unaligned_byte (_buf d) left q0).
    { unfold unaligned_byte.
      apply index_byte_at in Ha, Hb; try lia.
      rewrite Hq, Nat2Z.id in Ha.
      replace (Z.to_nat (_byte_offset d + 1)) with (S q0) in Hb by lia.
      rewrite Ha, Hb. reflexivity. }
    rewrite Hv, Nat2Z.id.
    rewrite (take_S_r _ s (unaligned_byte (_buf d) left q0))
      by (apply list_lookup_insert_eq; lia).
    rewrite take_insert_ge by lia.
    rewrite drop_insert_lt by lia.
    rewrite <- app_assoc. cbn [app].
    replace (S s + k)%nat with (s + S k)%nat by lia. reflexivity.
Qed.

Lemma unaligned_copy_content (d : Deserializer) (count : Z) :
  0 <= _bit_offset d ->
  _bit_offset d mod 8 <> 0 ->
  1 <= count ->
  _byte_offset d + count <= Py.len (_buf d) ->
  fetch_unaligned_bytes count d
  = (Ok (unaligned_byte (_buf d) (_bit_offset d mod 8)
           <$> seq (Z.to_nat (_byte_offset d)) (Z.to_nat count)),
     advanced d (count * 8)).
Proof.
  intros Hoff Hmis Hcount Hfit.
  set (left := _bit_offset d mod 8).
  assert (Hleft : 1 <= left <= 7)
    by (subst left; pose proof (Z.mod_pos_bound (_bit_offset d) 8); lia).
  assert (Hq : 0 <= _byte_offset d) by (unfold _byte_offset; apply Z.div_pos; lia).
  set (q := Z.to_nat (_byte_offset d)).
  set (c := Z.to_nat (count - 1)).
  assert (Hloop := unaligned_loop_content left c 0 q (replicate (Z.to_nat count) 0) d).
  rewrite length_replicate in Hloop. unfold Py.len in Hfit.
  specialize (Hloop ltac:(lia) ltac:(lia) ltac:(lia)).
  rewrite take_0 in Hloop. cbn [app Nat.add] in Hloop.
  replace (drop c (replicate (Z.to_nat count) 0)) with [0] in Hloop
    by (rewrite drop_replicate; replace (Z.to_nat count - c)%nat with 1%nat by lia;
        reflexivity).
  set (d1 := advanced d (8 * Z.of_nat c)) in *.
  assert (Hq1 : _byte_offset d1 = Z.of_nat (q + c))
    by (subst d1; rewrite byte_offset_advanced_bytes; lia).
  destruct (index_in_range (_buf d) (Z.of_nat (q + c))) as (a & Ha & Hia);
    [unfold Py.len; lia|].
  rewrite Nat2Z.id in Ha.
  set (x := Z.land (Z.shiftl a left) 255).
  assert (Htry :
    try_except_IndexError
      (let* d2 := self in
       let* b := lift (Py.index (_buf d2) (_byte_offset d2)) in
       ret (Z.lor x (Z.shiftr b (8 - left))))
      (ret x) (advanced d1 8)
    = (Ok (unaligned_byte (_buf d) left (q + c)), advanced d1 8)).
  { unfold try_except_IndexError, bind, self, lift, ret.
    rewrite byte_offset_advanced_8, Hq1. cbn [_buf advanced d1].
    unfold unaligned_byte. rewrite (byte_at_Some _ _ _ Ha). fold x.
    destruct (Z_lt_le_dec (Z.of_nat (q + c) + 1) (Py.len (_buf d))) as [Hin | Hpast].
    - destruct (index_in_range (_buf d) (Z.of_nat (q + c) + 1)) as (b & Hb & Hib); [lia|].
      rewrite Hib. replace (Z.to_nat (Z.of_nat (q + c) + 1)) with (S (q + c)) in Hb by lia.
      rewrite (byte_at_Some _ _ _ Hb). reflexivity.
    - destruct (index_past_end (_buf d) (Z.of_nat (q + c) + 1) Hpast) as [Hb Hib].
      rewrite Hib. replace (Z.to_nat (Z.of_nat (q + c) + 1)) with (S (q + c)) in Hb by lia.
      rewrite (byte_at_None _ _ Hb), Z.shiftr_0_l, Z.lor_0_r. reflexivity. }
  assert (Hfinal :
    <[c := unaligned_byte (_buf d) left (q + c)]>
      ((unaligned_byte (_buf d) left <$> seq q c) ++ [0])
    = unaligned_byte (_buf d) left <$> seq q (Z.to_nat count)).
  { replace (Z.to_nat count) with (c + 1)%nat by lia.
    rewrite seq_app, fmap_app. cbn [seq fmap list_fmap].
    rewrite (insert_app_r_alt _ _ c) by (rewrite length_fmap, length_seq; lia).
    rewrite length_fmap, length_seq, Nat.sub_diag. reflexivity. }
  unfold fetch_unaligned_bytes.
  destruct (count >? 0) eqn:Epos; [|lia].
  rewrite bind_self.
  destruct (_bit_offset d mod 8 =? 0) eqn:Ealigned; [apply Z.eqb_eq in Ealigned; lia|].
  cbn [negb]. fold left.
  rewrite bind_assert by lia.
  unfold Py.range. fold c.
  rewrite (bind_Ok _ _ _ _ _ Hloop).
  rewrite bind_self.
  rewrite (bind_lift_Ok _ _ _ a) by (cbn [_buf advanced d1]; rewrite Hq1; exact Hia).
  rewrite bind_bit_offset_add. fold x.
  rewrite (bind_Ok _ _ _ _ _ Htry).
  rewrite Hfinal.
  rewrite bind_assert
    by (apply Z.eqb_eq; unfold Py.len; rewrite length_fmap, length_seq; lia).
  unfold ret. f_equal. subst d1. rewrite advanced_advanced. apply advanced_eq. lia.
Qed.

Lemma byte_high_bits_clear b m :
  0 <= b < 2 ^ 8 -> 8 <= m -> Z.testbit b m = false.
Proof.
  intros Hb Hm. destruct (Z.eq_dec b 0) as [-> | Hne]; [apply Z.bits_0|].
  apply Z.bits_above_log2; [lia|].
  assert (Z.log2 b < 8) by (apply Z.log2_lt_pow2; lia). lia.
Qed.

Lemma byte_at_is_byte buf j :
  Forall (fun b => 0 <= b < 2 ^ 8) buf -> 0 <= byte_at buf j < 2 ^ 8.
Proof.
  intros Hbuf. unfold byte_at. destruct (buf !! j) as [x|] eqn:E; cbn; [|lia].
  rewrite Forall_forall in Hbuf. apply Hbuf. eapply list_elem_of_lookup_2, E.
Qed.

Lemma unaligned_byte_testbit buf left (j : nat) (i : Z) :
  Forall (fun b => 0 <= b < 2 ^ 8) buf ->
  0 <= left < 8 -> 0 <= i < 8 ->
  Z.testbit (unaligned_byte buf left j) (7 - i)
  = stream_bit buf (8 * Z.of_nat j + left + i).
Proof.
  intros Hbuf Hleft Hi. unfold unaligned_byte.
  rewrite Z.lor_spec, Z.land_spec, Z.shiftl_spec, Z.shiftr_spec by lia.
  change 255 with (Z.ones 8). rewrite Z.ones_spec_low by lia. rewrite andb_true_r.
  destruct (Z_lt_le_dec (left + i) 8) as [Hlow | Hhigh].
  - replace (8 * Z.of_nat j + left + i) with (8 * Z.of_nat j + (left + i)) by lia.
    rewrite stream_bit_in_byte by lia.
    rewrite (byte_high_bits_clear (byte_at buf (S j)))
      by (try apply byte_at_is_byte; try assumption; lia).
    rewrite orb_false_r. f_equal. lia.
  - replace (8 * Z.of_nat j + left + i) with (8 * Z.of_nat (S j) + (left + i - 8)) by lia.
    rewrite stream_bit_in_byte by lia.
    rewrite (Z.testbit_neg_r (byte_at buf j)) by lia.
    cbn [orb]. f_equal. lia.
Qed.

Lemma stream_bits_fmap buf n : forall k,
  stream_bits buf k n = (fun i : nat => stream_bit buf (k + Z.of_nat i)) <$> seq 0 n.
Proof.
  induction n as [|n IH]; intros k; [reflexivity|].
  cbn [stream_bits seq fmap list_fmap]. rewrite Z.add_0_r. f_equal.
  rewrite IH, <- fmap_S_seq, <- list_fmap_compose.
  apply list_fmap_ext. intros i x _. cbn. f_equal. lia.
Qed.

Lemma unaligned_byte_bits buf left (j : nat) :
  Forall (fun b => 0 <= b < 2 ^ 8) buf ->
  0 <= left < 8 ->
  Py.byte_bits (unaligned_byte buf left j) = stream_bits buf (8 * Z.of_nat j + left) 8.
Proof.
  intros Hbuf Hleft. rewrite stream_bits_fmap.
  unfold Py.byte_bits, Py.range. rewrite <- list_fmap_compose.
  change (Z.to_nat 8) with 8%nat.
  apply list_fmap_ext. intros i x Hx. apply lookup_seq in Hx as [-> Hlt]. cbn.
  apply unaligned_byte_testbit; [assumption | lia | lia].
Qed.

Lemma unaligned_bytes_bits buf left (c : nat) : forall q : nat,
  Forall (fun b => 0 <= b < 2 ^ 8) buf ->
  0 <= left < 8 ->
  Py.unpackbits (unaligned_byte buf left <$> seq q c)
  = stream_bits buf (8 * Z.of_nat q + left) (8 * c).
Proof.
  induction c as [|c IH]; intros q Hbuf Hleft; [reflexivity|].
  cbn [seq fmap list_fmap]. rewrite unpackbits_cons.
  replace (8 * S c)%nat with (8 + 8 * c)%nat by lia.
  rewrite stream_bits_app.
  change (list_fmap nat Z (unaligned_byte buf left) (seq (S q) c))
    with (unaligned_byte buf left <$> seq (S q) c).
  rewrite IH, unaligned_byte_bits by assumption.
  do 2 f_equal. lia.
Qed.

(** The byte-array read for a caller whose demand has been validated, at
    any alignment. *)
Lemma validated_bytes_read (d : Deserializer) (count demand : Z) :
  0 <= _bit_offset d ->
  0 <= demand ->
  count = (demand + 7) / 8 ->
  demand <= remaining_bit_length d ->
  bytes_ok (_buf d) = true ->
  exists out,
    fetch_unaligned_bytes count d = (Ok out, advanced d (count * 8)) /\
    Py.len out = count /\
    Py.unpackbits out = stream_bits (_buf d) (_bit_offset d) (8 * Z.to_nat count).
Proof.
  intros Hoff Hdemand Hcount Hrem Hbytes.
  apply bytes_ok_Forall in Hbytes.
  assert (Hc : 0 <= count /\ 8 * (count - 1) < demand <= 8 * count)
    by (subst count; Z.to_euclidean_division_equations; lia).
  assert (Hq : 0 <= _byte_offset d) by (unfold _byte_offset; apply Z.div_pos; lia).
  assert (Hr : 0 <= _bit_offset d mod 8 < 8) by (apply Z.mod_pos_bound; lia).
  assert (Hsplit : _bit_offset d = 8 * _byte_offset d + _bit_offset d mod 8)
    by (unfold _byte_offset; apply Z.div_mod; lia).
  assert (Hfit : _byte_offset d + count <= Py.len (_buf d)).
  { unfold remaining_bit_length, _buf_bit_length in Hrem.
    destruct (Z.eq_dec count 0); [unfold Py.len in *; lia|]. lia. }
  destruct (Z.eq_dec count 0) as [Hzero | Hpos].
  { exists []. rewrite Hzero. unfold fetch_unaligned_bytes. cbn.
    split; [|split; reflexivity]. unfold ret. f_equal.
    unfold advanced. destruct d; cbn. f_equal. lia. }
  destruct (Z.eq_dec (_bit_offset d mod 8) 0) as [Haligned | Hmis].
  - destruct (fetch_aligned_bytes_total count d Hoff Haligned) as (out & Hout & Hlen);
      [lia | exact Hfit |].
    exists out. split; [|split; [exact Hlen|]].
    + unfold fetch_unaligned_bytes. destruct (count >? 0) eqn:E; [|lia].
      rewrite bind_self. apply Z.eqb_eq in Haligned. rewrite Haligned. exact Hout.
    + apply fetch_aligned_bytes_Ok in Hout as Hslice.
      unfold fetch_aligned_bytes in Hout. rewrite bind_self in Hout.
      rewrite bind_assert in Hout by (apply Z.eqb_eq; exact Haligned).
      destruct (slice_window (_buf d) (_byte_offset d) count) as [Hs Hl]; [lia..|].
      rewrite Hl, Z.eqb_refl in Hout. cbn [negb] in Hout.
      rewrite bind_bit_offset_add in Hout. inversion Hout as [Hval].
      rewrite Hs.
      rewrite unpackbits_window by (unfold Py.len in *; lia).
      f_equal. lia.
  - exists (unaligned_byte (_buf d) (_bit_offset d mod 8)
              <$> seq (Z.to_nat (_byte_offset d)) (Z.to_nat count)).
    split; [apply unaligned_copy_content; lia|]. split.
    + unfold Py.len. rewrite length_fmap, length_seq. lia.
    + rewrite unaligned_bytes_bits by assumption. f_equal. lia.
Qed.

(** X4: at any alignment, a byte-array read made for a caller that wants
    [demand] bits ([count] being [demand] rounded up to whole bytes) and has
    checked that at least [demand] bits remain returns [count] bytes whose
    bits, most significant first, are the [8 * count] stream bits from the
    cursor on (zeros past the end of the buffer), and moves the cursor by
    [8 * count]. *)
Theorem fetch_unaligned_bytes_stream (d : Deserializer) (count demand : Z) :
  0 <= _bit_offset d ->
  0 <= demand ->
  count = (demand + 7) / 8 ->
  demand <= remaining_bit_length d ->
  bytes_ok (_buf d) = true ->
  exists out,
    fetch_unaligned_bytes count d = (Ok out, advanced d (count * 8)) /\
    Py.len out = count /\
    Py.unpackbits out = stream_bits (_buf d) (_bit_offset d) (8 * Z.to_nat count).
Proof. exact (validated_bytes_read d count demand). Qed.

Lemma fetch_unaligned_bytes_stream_witness :
  exists out,
    fetch_unaligned_bytes 2 (advanced (new little test_buffer) 19)
    = (Ok out, advanced (advanced (new little test_buffer) 19) (2 * 8)) /\
    Py.len out = 2 /\
    Py.unpackbits out = stream_bits test_buffer 19 (8 * Z.to_nat 2).
Proof.
  apply (fetch_unaligned_bytes_stream (advanced (new little test_buffer) 19) 2 13);
    vm_compute; try reflexivity; discriminate.
Defined.

(** ** Bit arrays at any alignment *)

Lemma validated_bits_read (d : Deserializer) (count : Z) :
  0 <= _bit_offset d ->
  0 <= count <= remaining_bit_length d ->
  bytes_ok (_buf d) = true ->
  fetch_unaligned_array_of_bits count d
  = (Ok (stream_bits (_buf d) (_bit_offset d) (Z.to_nat count)), advanced d count).
Proof.
  intros Hoff Hcount Hbytes.
  set (n := (count + 7) / 8).
  assert (Hn : 0 <= n /\ 8 * (n - 1) < count <= 8 * n)
    by (subst n; Z.to_euclidean_division_equations; lia).
  destruct (validated_bytes_read d n count Hoff) as (out & Hout & Hlen & Hbits);
    [lia | reflexivity | lia | exact Hbytes |].
  unfold fetch_unaligned_array_of_bits. fold n.
  rewrite (bind_Ok _ _ _ _ _ Hout).
  rewrite bind_assert by (apply Z.eqb_eq; exact Hlen).
  rewrite bind_assert by (apply andb_true_iff; split; lia).
  rewrite bind_bit_offset_add.
  rewrite slice_from_0, Hbits, stream_bits_take by lia.
  rewrite bind_assert
    by (apply Z.eqb_eq; unfold Py.len; rewrite stream_bits_length; lia).
  unfold ret. f_equal. rewrite advanced_advanced. apply advanced_eq. lia.
Qed.

Lemma bits_one_by_one (count : nat) : forall d,
  0 <= _bit_offset d ->
  Z.of_nat count <= remaining_bit_length d ->
  fetch_bits_one_by_one count d
  = (Ok (stream_bits (_buf d) (_bit_offset d) count), advanced d (Z.of_nat count)).
Proof.
  induction count as [|count IH]; intros d Hoff Hrem.
  - cbn. unfold ret. f_equal. unfold advanced. destruct d; cbn. f_equal. lia.
  - cbn [fetch_bits_one_by_one stream_bits].
    destruct (single_bit_read d Hoff) as [Hbit _].
    rewrite (bind_Ok _ _ _ _ _ (Hbit ltac:(lia))).
    rewrite (bind_Ok _ _ _ _ _ (IH (advanced d 1) ltac:(cbn; lia)
               ltac:(unfold remaining_bit_length, _buf_bit_length in *; cbn; lia))).
    unfold ret. cbn [_buf _bit_offset advanced]. f_equal.
    rewrite advanced_advanced. apply advanced_eq. lia.
Qed.

(** X5: with [0 <= count <= remaining bits], the bit-array read that makes
    no alignment assumption returns the next [count] stream bits and moves
    the cursor by exactly [count], wherever the cursor stands; the zero
    bits substituted for a byte past the end of the buffer never reach the
    result. *)
Theorem fetch_unaligned_array_of_bits_spec (d : Deserializer) (count : Z) :
  0 <= _bit_offset d ->
  0 <= count <= remaining_bit_length d ->
  bytes_ok (_buf d) = true ->
  fetch_unaligned_array_of_bits count d
  = (Ok (stream_bits (_buf d) (_bit_offset d) (Z.to_nat count)), advanced d count).
Proof. exact (validated_bits_read d count). Qed.

Lemma fetch_unaligned_array_of_bits_spec_witness :
  fetch_unaligned_array_of_bits 5 (advanced (new little test_buffer) 27)
  = (Ok (stream_bits test_buffer 27 (Z.to_nat 5)),
     advanced (advanced (new little test_buffer) 27) 5).
Proof.
  apply (fetch_unaligned_array_of_bits_spec (advanced (new little test_buffer) 27) 5);
    vm_compute; try reflexivity; try discriminate; split; discriminate.
Defined.

(** X6: reading [count] bits as one array gives the same bits and the same
    final state as [count] single-bit reads in a row, and, when the cursor
    is byte-aligned, as the aligned bit-array read. *)
Theorem bit_array_reads_agree (d : Deserializer) (count : nat) :
  0 <= _bit_offset d ->
  Z.of_nat count <= remaining_bit_length d ->
  bytes_ok (_buf d) = true ->
  fetch_unaligned_array_of_bits (Z.of_nat count) d = fetch_bits_one_by_one count d /\
  (_bit_offset d mod 8 = 0 ->
   fetch_unaligned_array_of_bits (Z.of_nat count) d
   = fetch_aligned_array_of_bits (Z.of_nat count) d).
Proof.
  intros Hoff Hrem Hbytes.
  rewrite validated_bits_read by (try assumption; lia).
  rewrite Nat2Z.id. split.
  - rewrite bits_one_by_one by assumption. reflexivity.
  - intros Haligned. rewrite aligned_bits_read by (try assumption; lia).
    destruct (Z.leb_spec 0 (Z.of_nat count)); [|lia].
    destruct (Z.leb_spec (Z.of_nat count) (remaining_bit_length d)); [|lia].
    cbn [andb]. rewrite Nat2Z.id. reflexivity.
Qed.

Lemma bit_array_reads_agree_witness :
  fetch_unaligned_array_of_bits (Z.of_nat 13) (advanced (new little test_buffer) 16)
  = fetch_bits_one_by_one 13 (advanced (new little test_buffer) 16) /\
  (_bit_offset (advanced (new little test_buffer) 16) mod 8 = 0 ->
   fetch_unaligned_array_of_bits (Z.of_nat 13) (advanced (new little test_buffer) 16)
   = fetch_aligned_array_of_bits (Z.of_nat 13) (advanced (new little test_buffer) 16)).
Proof.
  apply (bit_array_reads_agree (advanced (new little test_buffer) 16) 13);
    vm_compute; try reflexivity; discriminate.
Defined.

(** ** The value of the bits read *)

Lemma byte_cases (P : Z -> Prop) (test : Z -> bool) :
  (forall x, test x = true -> P x) ->
  forallb (fun n => test (Z.of_nat n)) (seq 0 256) = true ->
  forall x, 0 <= x < 2 ^ 8 -> P x.
Proof.
  intros Hsound Hall x Hx. apply Hsound.
  rewrite forallb_forall in Hall.
  specialize (Hall (Z.to_nat x)). rewrite Z2Nat.id in Hall by lia.
  apply Hall, in_seq. change (2 ^ 8) with 256 in Hx. lia.
Qed.

Lemma bits_be_top (x s : Z) :
  0 <= x < 2 ^ 8 -> 0 <= s <= 7 ->
  bits_be (take (Z.to_nat (8 - s)) (Py.byte_bits x)) = Z.shiftr x s.
Proof.
  intros Hx Hs. revert x Hx.
  apply (byte_cases _ (fun x =>
           forallb (fun k => bits_be (take (8 - k) (Py.byte_bits x)) =? Z.shiftr x (Z.of_nat k))
                   (seq 0 8))).
  - intros x Hall. rewrite forallb_forall in Hall.
    specialize (Hall (Z.to_nat s)). rewrite Z2Nat.id in Hall by lia.
    replace (Z.to_nat (8 - s)) with (8 - Z.to_nat s)%nat by lia.
    apply Z.eqb_eq, Hall, in_seq. lia.
  - vm_compute. reflexivity.
Qed.

Lemma bits_be_byte x : 0 <= x < 2 ^ 8 -> bits_be (Py.byte_bits x) = x.
Proof.
  intros Hx. pose proof (bits_be_top x 0 Hx ltac:(lia)) as H.
  change (Z.to_nat (8 - 0)) with 8%nat in H.
  rewrite take_ge in H by (rewrite byte_bits_length; lia).
  rewrite H. apply Z.shiftr_0_r.
Qed.

Lemma little_endian_groups_nil fuel : little_endian_groups fuel [] = 0.
Proof. destruct fuel; reflexivity. Qed.

Lemma little_endian_groups_enough fuel : forall bits,
  (length bits <= fuel)%nat ->
  little_endian_groups fuel bits = bits_value bits.
Proof.
  unfold bits_value.
  induction fuel as [fuel IH] using lt_wf_ind. intros bits Hlen.
  destruct bits as [|b bits]; [rewrite !little_endian_groups_nil; reflexivity|].
  destruct fuel as [|fuel]; [cbn in Hlen; lia|].
  cbn [little_endian_groups length]. f_equal. f_equal.
  assert (Hdrop : (length (drop 8 (b :: bits)) <= length bits)%nat)
    by (rewrite length_drop; cbn [length]; lia).
  rewrite (IH fuel) by (cbn [length] in Hlen; lia).
  destruct (Nat.eq_dec (length (drop 8 (b :: bits))) (length bits)) as [-> | Hne];
    [reflexivity|].
  rewrite (IH (length bits)); [reflexivity | | exact Hdrop].
  cbn [length] in Hlen. lia.
Qed.

Lemma bits_value_short bits :
  (length bits <= 8)%nat -> bits_value bits = bits_be bits.
Proof.
  intros Hlen. unfold bits_value. destruct bits as [|b bits]; [reflexivity|].
  cbn [length little_endian_groups].
  rewrite take_ge by (cbn [length] in *; lia).
  rewrite drop_ge by (cbn [length] in *; lia).
  rewrite little_endian_groups_nil. lia.
Qed.

Lemma bits_value_group (first rest : list bool) :
  length first = 8%nat ->
  bits_value (first ++ rest) = bits_be first + 2 ^ 8 * bits_value rest.
Proof.
  intros Hfirst. unfold bits_value at 1.
  destruct first as [|b first]; [discriminate|].
  cbn [app length little_endian_groups].
  change (b :: first ++ rest) with ((b :: first) ++ rest).
  rewrite take_app_length', drop_app_length' by (symmetry; exact Hfirst).
  rewrite little_endian_groups_enough; [reflexivity|].
  rewrite length_app. cbn [length] in Hfirst. lia.
Qed.

Lemma whole_bytes_shift l : forall s,
  whole_bytes (S s) l = Z.shiftl (whole_bytes s l) 8.
Proof.
  induction l as [|b l IH]; intros s.
  - reflexivity.
  - rewrite !whole_bytes_cons, IH, Z.shiftl_lor, Z.shiftl_shiftl by lia.
    do 2 f_equal. lia.
Qed.

Lemma lor_byte_shiftl x y :
  0 <= x < 2 ^ 8 -> Z.lor x (Z.shiftl y 8) = x + 2 ^ 8 * y.
Proof.
  intros Hx.
  assert (Hland : Z.land x (Z.shiftl y 8) = 0).
  { apply Z.bits_inj'. intros n Hn. rewrite Z.land_spec, Z.bits_0.
    destruct (Z_lt_le_dec n 8) as [Hlow | Hhigh].
    - rewrite Z.shiftl_spec_low by lia. apply andb_false_r.
    - rewrite (byte_high_bits_clear x n) by lia. reflexivity. }
  rewrite <- Z.lxor_lor, <- Z.add_nocarry_lxor by exact Hland.
  rewrite Z.shiftl_mul_pow2 by lia. lia.
Qed.

Lemma reconstruct_cons x l n final_bits :
  2 <= n -> 0 <= x < 2 ^ 8 ->
  reconstruct (x :: l) n final_bits = x + 2 ^ 8 * reconstruct l (n - 1) final_bits.
Proof.
  intros Hn Hx. unfold reconstruct.
  replace (Z.to_nat (n - 1)) with (S (Z.to_nat (n - 1 - 1))) by lia.
  cbn [take]. rewrite whole_bytes_cons, whole_bytes_shift.
  change (8 * Z.of_nat 0) with 0. rewrite Z.shiftl_0_r.
  change ((x :: l) !!! S (Z.to_nat (n - 1 - 1))) with (l !!! Z.to_nat (n - 1 - 1)).
  replace (8 * (n - 1)) with (8 * (n - 1 - 1) + 8) by lia.
  rewrite <- Z.shiftl_shiftl by lia.
  rewrite <- Z.lor_assoc, <- Z.shiftl_lor.
  apply lor_byte_shiftl. exact Hx.
Qed.

Lemma reconstruct_bits_value bs : forall n final_bits,
  Forall (fun b => 0 <= b < 2 ^ 8) bs ->
  Z.of_nat (length bs) = n -> 1 <= n ->
  1 <= final_bits <= 8 ->
  reconstruct bs n final_bits
  = bits_value (take (Z.to_nat (8 * (n - 1) + final_bits)) (Py.unpackbits bs)).
Proof.
  induction bs as [|x l IH]; intros n final_bits Hbs Hlen Hn Hfb.
  - cbn [length] in Hlen. lia.
  - inversion Hbs as [|? ? Hx Hl]; subst.
    destruct l as [|y l'].
    + cbn [length] in *. change (Z.of_nat 1) with 1 in *.
      replace (8 * (1 - 1) + final_bits) with final_bits by lia.
      unfold reconstruct. change (Z.to_nat (1 - 1)) with 0%nat.
      cbn [take]. unfold whole_bytes at 1. cbn [imap foldr].
      change ([x] !!! 0%nat) with x. rewrite Z.lor_0_l. change (8 * (1 - 1)) with 0.
      rewrite Z.shiftl_0_r.
      change (Py.unpackbits [x]) with (Py.byte_bits x ++ []). rewrite app_nil_r.
      rewrite bits_value_short by (rewrite length_take, byte_bits_length; lia).
      pose proof (bits_be_top x (8 - final_bits) Hx ltac:(lia)) as Htop.
      replace (8 - (8 - final_bits)) with final_bits in Htop by lia.
      rewrite Htop. reflexivity.
    + rewrite reconstruct_cons by (cbn [length] in *; lia || assumption).
      replace (Z.of_nat (length (x :: y :: l')) - 1) with (Z.of_nat (length (y :: l')))
        by (cbn [length]; lia).
      rewrite (IH (Z.of_nat (length (y :: l')) ) final_bits Hl eq_refl)
        by (cbn [length] in *; lia).
      rewrite (unpackbits_cons x).
      rewrite (take_app_ge (Py.byte_bits x)) by (rewrite byte_bits_length; cbn [length]; lia).
      rewrite byte_bits_length.
      rewrite bits_value_group by apply byte_bits_length.
      rewrite bits_be_byte by exact Hx.
      do 4 f_equal. cbn [length]. lia.
Qed.

(** ** Unsigned and signed integers at any alignment *)

Lemma slice_length_window {A} (l : list A) (a n : Z) :
  0 <= a -> 0 <= n -> Py.len (Py.slice l a (a + n)) <= n.
Proof.
  intros Ha Hn. unfold Py.len, Py.slice, Py.clamp.
  destruct (Z.ltb_spec a 0); [lia|]. destruct (Z.ltb_spec (a + n) 0); [lia|].
  rewrite length_take, length_drop. lia.
Qed.

Lemma aligned_bytes_delegate (d : Deserializer) (n : Z) :
  0 < n -> _bit_offset d mod 8 = 0 ->
  fetch_unaligned_bytes n d = fetch_aligned_bytes n d.
Proof.
  intros Hn Haligned. unfold fetch_unaligned_bytes.
  destruct (n >? 0) eqn:Epos; [|lia].
  rewrite bind_self. apply Z.eqb_eq in Haligned. rewrite Haligned. reflexivity.
Qed.

Lemma fetch_aligned_bytes_outcome (d : Deserializer) (n : Z) :
  _bit_offset d mod 8 = 0 ->
  fetch_aligned_bytes n d
  = let bs := Py.slice (_buf d) (_byte_offset d) (_byte_offset d + n) in
    if Py.len bs =? n then (Ok bs, advanced d (n * 8)) else (Raise IndexError, d).
Proof.
  intros Haligned. unfold fetch_aligned_bytes. rewrite bind_self.
  rewrite bind_assert by (apply Z.eqb_eq; exact Haligned).
  cbv zeta. destruct (_ =? n); reflexivity.
Qed.

Lemma unsigned_paths_agree (d : Deserializer) (bit_length : Z) :
  1 <= bit_length ->
  0 <= _bit_offset d ->
  _bit_offset d mod 8 = 0 ->
  fetch_unaligned_unsigned bit_length d = fetch_aligned_unsigned bit_length d.
Proof.
  intros Hbl Hoff Haligned.
  set (n := (bit_length + 7) / 8).
  assert (Hn : 1 <= n /\ 8 * (n - 1) < bit_length <= 8 * n)
    by (subst n; Z.to_euclidean_division_equations; lia).
  assert (Hq : 0 <= _byte_offset d) by (unfold _byte_offset; apply Z.div_pos; lia).
  pose proof (slice_length_window (_buf d) (_byte_offset d) n Hq ltac:(lia)) as Hle.
  unfold fetch_unaligned_unsigned, fetch_aligned_unsigned. fold n.
  rewrite bind_self, bind_assert by (apply Z.eqb_eq; exact Haligned).
  unfold bind at 1.
  rewrite aligned_bytes_delegate, fetch_aligned_bytes_outcome by (assumption || lia).
  cbv zeta.
  set (bs := Py.slice (_buf d) (_byte_offset d) (_byte_offset d + n)) in *.
  destruct (Z.eqb_spec (Py.len bs) n) as [Hlen | Hshort].
  - destruct (Z.ltb_spec (Py.len bs * 8) bit_length); [lia|].
    rewrite bind_assert by (apply Z.eqb_eq; exact Hlen).
    rewrite bind_assert by (apply andb_true_iff; split; lia).
    rewrite !bind_bit_offset_add. unfold lift. f_equal.
    rewrite advanced_advanced. apply advanced_eq. lia.
  - destruct (Z.ltb_spec (Py.len bs * 8) bit_length); [reflexivity | lia].
Qed.

Lemma unsigned_read_value (d : Deserializer) (bit_length : Z) :
  1 <= bit_length ->
  0 <= _bit_offset d ->
  bit_length <= remaining_bit_length d ->
  bytes_ok (_buf d) = true ->
  fetch_unaligned_unsigned bit_length d
  = (Ok (bits_value (stream_bits (_buf d) (_bit_offset d) (Z.to_nat bit_length))),
     advanced d bit_length).
Proof.
  intros Hbl Hoff Hrem Hbytes.
  set (n := (bit_length + 7) / 8).
  assert (Hn : 1 <= n /\ 8 * (n - 1) < bit_length <= 8 * n)
    by (subst n; Z.to_euclidean_division_equations; lia).
  destruct (validated_bytes_read d n bit_length Hoff) as (out & Hout & Hlen & Hbits);
    [lia | reflexivity | exact Hrem | exact Hbytes |].
  pose proof (fetch_unaligned_bytes_are_bytes _ _ _ _ Hout Hbytes) as Hok.
  destruct (_unsigned_from_bytes_total out bit_length Hok Hbl) as [Hvalue _];
    [fold n; lia|].
  assert (Hjust : justified_aligned_unsigned out bit_length
                  = bits_value (stream_bits (_buf d) (_bit_offset d) (Z.to_nat bit_length))).
  { unfold justified_aligned_unsigned. fold n.
    rewrite (reconstruct_bits_value out n)
      by (try (apply bytes_ok_Forall; exact Hok); try exact Hlen;
          Z.to_euclidean_division_equations; lia).
    replace (8 * (n - 1) + ((bit_length - 1) mod 8 + 1)) with bit_length
      by (subst n; Z.to_euclidean_division_equations; lia).
    rewrite Hbits, stream_bits_take by lia. reflexivity. }
  unfold fetch_unaligned_unsigned. fold n.
  rewrite (bind_Ok _ _ _ _ _ Hout).
  rewrite bind_assert by (apply Z.eqb_eq; exact Hlen).
  rewrite bind_assert by (apply andb_true_iff; split; lia).
  rewrite bind_bit_offset_add. unfold lift. rewrite Hvalue, Hjust.
  f_equal. rewrite advanced_advanced. apply advanced_eq. lia.
Qed.

(** X7: with the length validated, the unsigned read of [bit_length >= 1]
    bits returns, at any alignment, the value of the next [bit_length]
    stream bits: the bits in groups of eight, each group a binary numeral
    (most significant bit first), the groups in little-endian order, a final
    short group right-justified; the aligned method returns the same at an
    aligned cursor, and the signed reads ([bit_length >= 2]) return its
    two's-complement reinterpretation.  The cursor moves by [bit_length]. *)
Theorem integer_reads_value (d : Deserializer) (bit_length : Z) :
  1 <= bit_length ->
  0 <= _bit_offset d ->
  bit_length <= remaining_bit_length d ->
  bytes_ok (_buf d) = true ->
  let u := bits_value (stream_bits (_buf d) (_bit_offset d) (Z.to_nat bit_length)) in
  fetch_unaligned_unsigned bit_length d = (Ok u, advanced d bit_length) /\
  (2 <= bit_length ->
   fetch_unaligned_signed bit_length d
   = (Ok (twos_complement u bit_length), advanced d bit_length)) /\
  (_bit_offset d mod 8 = 0 ->
   fetch_aligned_unsigned bit_length d = (Ok u, advanced d bit_length) /\
   (2 <= bit_length ->
    fetch_aligned_signed bit_length d
    = (Ok (twos_complement u bit_length), advanced d bit_length))).
Proof.
  intros Hbl Hoff Hrem Hbytes u.
  pose proof (unsigned_read_value d bit_length Hbl Hoff Hrem Hbytes) as Hu. fold u in Hu.
  split; [exact Hu|]. split.
  - intros Hs. unfold fetch_unaligned_signed.
    rewrite bind_assert by lia. rewrite (bind_Ok _ _ _ _ _ Hu). reflexivity.
  - intros Haligned.
    rewrite (unsigned_paths_agree d bit_length Hbl Hoff Haligned) in Hu.
    split; [exact Hu|].
    intros Hs. unfold fetch_aligned_signed.
    rewrite bind_assert by lia. rewrite (bind_Ok _ _ _ _ _ Hu). reflexivity.
Qed.

Lemma integer_reads_value_witness :
  let d := advanced (new little unaligned_sample) 85 in
  let u := bits_value (stream_bits (_buf d) (_bit_offset d) (Z.to_nat 11)) in
  fetch_unaligned_unsigned 11 d = (Ok u, advanced d 11) /\
  (2 <= 11 -> fetch_unaligned_signed 11 d = (Ok (twos_complement u 11), advanced d 11)) /\
  (_bit_offset d mod 8 = 0 ->
   fetch_aligned_unsigned 11 d = (Ok u, advanced d 11) /\
   (2 <= 11 -> fetch_aligned_signed 11 d = (Ok (twos_complement u 11), advanced d 11))).
Proof.
  apply (integer_reads_value (advanced (new little unaligned_sample) 85) 11);
    vm_compute; try reflexivity; discriminate.
Defined.

(** X8: at a byte-aligned cursor the unaligned unsigned and signed reads
    are interchangeable with the aligned ones: same value and same final
    state when they succeed, same exception and same final state when they
    fail. *)
Theorem aligned_and_unaligned_integer_reads_agree (d : Deserializer) (bit_length : Z) :
  1 <= bit_length ->
  0 <= _bit_offset d ->
  _bit_offset d mod 8 = 0 ->
  fetch_unaligned_unsigned bit_length d = fetch_aligned_unsigned bit_length d /\
  fetch_unaligned_signed bit_length d = fetch_aligned_signed bit_length d.
Proof.
  intros Hbl Hoff Haligned.
  pose proof (unsigned_paths_agree d bit_length Hbl Hoff Haligned) as H.
  split; [exact H|].
  unfold fetch_unaligned_signed, fetch_aligned_signed.
  destruct (bit_length >=? 2); [|reflexivity].
  rewrite !bind_assert by reflexivity. unfold bind. rewrite H. reflexivity.
Qed.

Lemma aligned_and_unaligned_integer_reads_agree_witness :
  fetch_unaligned_unsigned 12 (advanced (new little aligned_sample) 248)
  = fetch_aligned_unsigned 12 (advanced (new little aligned_sample) 248) /\
  fetch_unaligned_signed 12 (advanced (new little aligned_sample) 248)
  = fetch_aligned_signed 12 (advanced (new little aligned_sample) 248).
Proof.
  apply (aligned_and_unaligned_integer_reads_agree
           (advanced (new little aligned_sample) 248) 12);
    vm_compute; try reflexivity; discriminate.
Defined.

(** ** Standard widths *)

Lemma le_pattern_app l1 : forall l2,
  Py.le_pattern (l1 ++ l2)
  = Z.lor (Py.le_pattern l1) (Z.shiftl (Py.le_pattern l2) (8 * Z.of_nat (length l1))).
Proof.
  induction l1 as [|b l1 IH]; intros l2.
  - cbn. rewrite Z.shiftl_0_r. reflexivity.
  - cbn [app Py.le_pattern length]. rewrite IH, Z.shiftl_lor, Z.shiftl_shiftl by lia.
    rewrite Z.lor_assoc. do 2 f_equal. lia.
Qed.

Lemma bits_value_bytes bs :
  Forall (fun b => 0 <= b < 2 ^ 8) bs ->
  bits_value (Py.unpackbits bs) = Py.le_pattern bs.
Proof.
  induction bs as [|b bs IH]; intros Hbs; [reflexivity|].
  inversion Hbs as [|? ? Hb Hbs']; subst.
  rewrite unpackbits_cons, bits_value_group by apply byte_bits_length.
  rewrite bits_be_byte, IH by assumption.
  cbn [Py.le_pattern]. symmetry. apply lor_byte_shiftl. exact Hb.
Qed.

(** The next [k] bytes under an aligned cursor. *)
Lemma next_bytes_value (d : Deserializer) (k : nat) :
  0 <= _bit_offset d -> _bit_offset d mod 8 = 0 ->
  8 * Z.of_nat k <= remaining_bit_length d ->
  bytes_ok (_buf d) = true ->
  bits_value (stream_bits (_buf d) (_bit_offset d) (8 * k))
  = Py.le_pattern (take k (drop (Z.to_nat (_byte_offset d)) (_buf d))).
Proof.
  intros Hoff Haligned Hrem Hbytes.
  pose proof (aligned_byte_offset d Haligned) as Hq.
  unfold remaining_bit_length, _buf_bit_length, Py.len in Hrem.
  rewrite <- bits_value_bytes
    by (apply Forall_take, Forall_drop, bytes_ok_Forall; exact Hbytes).
  rewrite unpackbits_window by lia. do 2 f_equal. lia.
Qed.

Lemma fetch_aligned_u8_total (d : Deserializer) :
  0 <= _bit_offset d -> _bit_offset d mod 8 = 0 ->
  8 <= remaining_bit_length d ->
  fetch_aligned_u8 d
  = (Ok (Py.le_pattern (take 1 (drop (Z.to_nat (_byte_offset d)) (_buf d)))), advanced d 8).
Proof.
  intros Hoff Haligned Hrem.
  pose proof (aligned_byte_offset d Haligned) as Hq.
  unfold remaining_bit_length, _buf_bit_length in Hrem.
  destruct (index_in_range (_buf d) (_byte_offset d)) as (b & Hb & Hib); [lia|].
  unfold fetch_aligned_u8. rewrite bind_self.
  rewrite bind_assert by (apply Z.eqb_eq; exact Haligned).
  rewrite (bind_lift_Ok _ _ _ b Hib), bind_bit_offset_add.
  rewrite (drop_S _ _ _ Hb). cbn [take Py.le_pattern].
  rewrite take_0. cbn [Py.le_pattern]. rewrite Z.shiftl_0_l, Z.lor_0_r. reflexivity.
Qed.

Lemma aligned_advanced_bytes (d : Deserializer) (k : Z) :
  0 <= _bit_offset d -> _bit_offset d mod 8 = 0 -> 0 <= k ->
  0 <= _bit_offset (advanced d (8 * k)) /\
  _bit_offset (advanced d (8 * k)) mod 8 = 0 /\
  Z.to_nat (_byte_offset (advanced d (8 * k))) = (Z.to_nat (_byte_offset d) + Z.to_nat k)%nat /\
  remaining_bit_length (advanced d (8 * k)) = remaining_bit_length d - 8 * k.
Proof.
  intros Hoff Haligned Hk.
  assert (Hq : 0 <= _byte_offset d) by (unfold _byte_offset; apply Z.div_pos; lia).
  rewrite byte_offset_advanced_bytes.
  unfold remaining_bit_length, _buf_bit_length, advanced; cbn.
  repeat split; try lia.
  replace (_bit_offset d + 8 * k) with (_bit_offset d + k * 8) by lia.
  rewrite Z.mod_add by lia. exact Haligned.
Qed.

(** Two reads of [k] bytes each, combined as [lo | hi << 8k], make one read
    of [2k] bytes. *)
Lemma double_width (k : nat) (half : M Z) (d : Deserializer) :
  (forall d', 0 <= _bit_offset d' -> _bit_offset d' mod 8 = 0 ->
              8 * Z.of_nat k <= remaining_bit_length d' ->
              half d' = (Ok (Py.le_pattern (take k (drop (Z.to_nat (_byte_offset d')) (_buf d')))),
                         advanced d' (8 * Z.of_nat k))) ->
  0 <= _bit_offset d -> _bit_offset d mod 8 = 0 ->
  8 * Z.of_nat (k + k) <= remaining_bit_length d ->
  (let* out := half in
   let* hi := half in
   ret (Z.lor out (Z.shiftl hi (8 * Z.of_nat k)))) d
  = (Ok (Py.le_pattern (take (k + k) (drop (Z.to_nat (_byte_offset d)) (_buf d)))),
     advanced d (8 * Z.of_nat (k + k))).
Proof.
  intros Hhalf Hoff Haligned Hrem.
  destruct (aligned_advanced_bytes d (Z.of_nat k) Hoff Haligned ltac:(lia))
    as (Hoff' & Haligned' & Hq' & Hrem').
  rewrite (bind_Ok _ _ _ _ _ (Hhalf d Hoff Haligned ltac:(lia))).
  rewrite (bind_Ok _ _ _ _ _ (Hhalf _ Hoff' Haligned' ltac:(lia))).
  unfold ret. f_equal.
  - rewrite Hq', Nat2Z.id. cbn [_buf advanced].
    rewrite <- take_take_drop, le_pattern_app, drop_drop.
    do 3 f_equal.
    assert (Hfit : (Z.to_nat (_byte_offset d) + (k + k) <= length (_buf d))%nat).
    { pose proof (aligned_byte_offset d Haligned).
      unfold remaining_bit_length, _buf_bit_length, Py.len in Hrem. lia. }
    rewrite length_take, length_drop. lia.
  - rewrite advanced_advanced. apply advanced_eq. lia.
Qed.

Lemma fetch_aligned_u16_total (d : Deserializer) :
  0 <= _bit_offset d -> _bit_offset d mod 8 = 0 ->
  16 <= remaining_bit_length d ->
  fetch_aligned_u16 d
  = (Ok (Py.le_pattern (take 2 (drop (Z.to_nat (_byte_offset d)) (_buf d)))), advanced d 16).
Proof.
  intros. apply (double_width 1 fetch_aligned_u8); try assumption.
  intros d' ? ? ?. apply fetch_aligned_u8_total; assumption.
Qed.

Lemma fetch_aligned_u32_total (d : Deserializer) :
  0 <= _bit_offset d -> _bit_offset d mod 8 = 0 ->
  32 <= remaining_bit_length d ->
  fetch_aligned_u32 d
  = (Ok (Py.le_pattern (take 4 (drop (Z.to_nat (_byte_offset d)) (_buf d)))), advanced d 32).
Proof.
  intros. apply (double_width 2 fetch_aligned_u16); try assumption.
  intros d' ? ? ?. apply fetch_aligned_u16_total; assumption.
Qed.

Lemma fetch_aligned_u64_total (d : Deserializer) :
  0 <= _bit_offset d -> _bit_offset d mod 8 = 0 ->
  64 <= remaining_bit_length d ->
  fetch_aligned_u64 d
  = (Ok (Py.le_pattern (take 8 (drop (Z.to_nat (_byte_offset d)) (_buf d)))), advanced d 64).
Proof.
  intros. apply (double_width 4 fetch_aligned_u32); try assumption.
  intros d' ? ? ?. apply fetch_aligned_u32_total; assumption.
Qed.

Lemma aligned_unsigned_bytes (d : Deserializer) (w : Z) (k : nat) :
  w = 8 * Z.of_nat k ->
  (1 <= k)%nat ->
  0 <= _bit_offset d -> _bit_offset d mod 8 = 0 ->
  w <= remaining_bit_length d ->
  bytes_ok (_buf d) = true ->
  fetch_aligned_unsigned w d
  = (Ok (Py.le_pattern (take k (drop (Z.to_nat (_byte_offset d)) (_buf d)))),
     advanced d w).
Proof.
  intros -> Hk Hoff Haligned Hrem Hbytes.
  rewrite <- unsigned_paths_agree by (assumption || lia).
  rewrite unsigned_read_value by (assumption || lia).
  replace (Z.to_nat (8 * Z.of_nat k)) with (8 * k)%nat by lia.
  rewrite next_bytes_value by assumption. reflexivity.
Qed.

(** X9: with the length validated at a byte-aligned cursor, each of the
    fixed-width readers u8/u16/u32/u64 returns exactly what the generic
    aligned unsigned read of 8/16/32/64 bits returns, and each of
    i8/i16/i32/i64 what the generic aligned signed read returns: same value,
    same final state. *)
Theorem standard_width_reads_agree (d : Deserializer) :
  0 <= _bit_offset d -> _bit_offset d mod 8 = 0 ->
  bytes_ok (_buf d) = true ->
  (8 <= remaining_bit_length d ->
   fetch_aligned_u8 d = fetch_aligned_unsigned 8 d /\
   fetch_aligned_i8 d = fetch_aligned_signed 8 d) /\
  (16 <= remaining_bit_length d ->
   fetch_aligned_u16 d = fetch_aligned_unsigned 16 d /\
   fetch_aligned_i16 d = fetch_aligned_signed 16 d) /\
  (32 <= remaining_bit_length d ->
   fetch_aligned_u32 d = fetch_aligned_unsigned 32 d /\
   fetch_aligned_i32 d = fetch_aligned_signed 32 d) /\
  (64 <= remaining_bit_length d ->
   fetch_aligned_u64 d = fetch_aligned_unsigned 64 d /\
   fetch_aligned_i64 d = fetch_aligned_signed 64 d).
Proof.
  intros Hoff Haligned Hbytes.
  split; [|split; [|split]]; intros Hrem; split.
  - rewrite fetch_aligned_u8_total, (aligned_unsigned_bytes d 8 1) by (assumption || lia).
    reflexivity.
  - unfold fetch_aligned_i8, fetch_aligned_signed. rewrite bind_assert by reflexivity.
    unfold bind.
    rewrite fetch_aligned_u8_total, (aligned_unsigned_bytes d 8 1) by (assumption || lia).
    reflexivity.
  - rewrite fetch_aligned_u16_total, (aligned_unsigned_bytes d 16 2) by (assumption || lia).
    reflexivity.
  - unfold fetch_aligned_i16, fetch_aligned_signed. rewrite bind_assert by reflexivity.
    unfold bind.
    rewrite fetch_aligned_u16_total, (aligned_unsigned_bytes d 16 2) by (assumption || lia).
    reflexivity.
  - rewrite fetch_aligned_u32_total, (aligned_unsigned_bytes d 32 4) by (assumption || lia).
    reflexivity.
  - unfold fetch_aligned_i32, fetch_aligned_signed. rewrite bind_assert by reflexivity.
    unfold bind.
    rewrite fetch_aligned_u32_total, (aligned_unsigned_bytes d 32 4) by (assumption || lia).
    reflexivity.
  - rewrite fetch_aligned_u64_total, (aligned_unsigned_bytes d 64 8) by (assumption || lia).
    reflexivity.
  - unfold fetch_aligned_i64, fetch_aligned_signed. rewrite bind_assert by reflexivity.
    unfold bind.
    rewrite fetch_aligned_u64_total, (aligned_unsigned_bytes d 64 8) by (assumption || lia).
    reflexivity.
Qed.

Lemma standard_width_reads_agree_witness :
  (8 <= remaining_bit_length (advanced (new little aligned_sample) 8) ->
   fetch_aligned_u8 (advanced (new little aligned_sample) 8)
   = fetch_aligned_unsigned 8 (advanced (new little aligned_sample) 8) /\
   fetch_aligned_i8 (advanced (new little aligned_sample) 8)
   = fetch_aligned_signed 8 (advanced (new little aligned_sample) 8)) /\
  (16 <= remaining_bit_length (advanced (new little aligned_sample) 8) ->
   fetch_aligned_u16 (advanced (new little aligned_sample) 8)
   = fetch_aligned_unsigned 16 (advanced (new little aligned_sample) 8) /\
   fetch_aligned_i16 (advanced (new little aligned_sample) 8)
   = fetch_aligned_signed 16 (advanced (new little aligned_sample) 8)) /\
  (32 <= remaining_bit_length (advanced (new little aligned_sample) 8) ->
   fetch_aligned_u32 (advanced (new little aligned_sample) 8)
   = fetch_aligned_unsigned 32 (advanced (new little aligned_sample) 8) /\
   fetch_aligned_i32 (advanced (new little aligned_sample) 8)
   = fetch_aligned_signed 32 (advanced (new little aligned_sample) 8)) /\
  (64 <= remaining_bit_length (advanced (new little aligned_sample) 8) ->
   fetch_aligned_u64 (advanced (new little aligned_sample) 8)
   = fetch_aligned_unsigned 64 (advanced (new little aligned_sample) 8) /\
   fetch_aligned_i64 (advanced (new little aligned_sample) 8)
   = fetch_aligned_signed 64 (advanced (new little aligned_sample) 8)).
Proof.
  apply (standard_width_reads_agree (advanced (new little aligned_sample) 8));
    vm_compute; try reflexivity; discriminate.
Defined.

(** ** The length check and what it buys *)

Lemma require_remaining_bit_length_outcome (d : Deserializer) (minimum : Z) :
  require_remaining_bit_length minimum d
  = if remaining_bit_length d <? minimum then (Raise FormatError, d) else (Ok tt, d).
Proof.
  unfold require_remaining_bit_length. rewrite bind_self.
  destruct (remaining_bit_length d <? minimum); [|reflexivity].
  rewrite bind_assert; [reflexivity|].
  apply Z.eqb_eq. unfold consumed_bit_length, remaining_bit_length. lia.
Qed.

Lemma advanced_0 d : advanced d 0 = d.
Proof. unfold advanced. destruct d; cbn. f_equal. lia. Qed.

Lemma float_bytes_read (d : Deserializer) (k : Z) :
  0 <= k ->
  0 <= _bit_offset d ->
  k * 8 <= remaining_bit_length d ->
  bytes_ok (_buf d) = true ->
  exists out, fetch_unaligned_bytes k d = (Ok out, advanced d (k * 8)).
Proof.
  intros Hk Hoff Hrem Hbytes.
  destruct (validated_bytes_read d k (k * 8) Hoff) as (out & Hout & _);
    [lia | Z.to_euclidean_division_equations; lia | exact Hrem | exact Hbytes |].
  exists out. exact Hout.
Qed.

Lemma signed_read_value (d : Deserializer) (bit_length : Z) :
  2 <= bit_length ->
  0 <= _bit_offset d ->
  bit_length <= remaining_bit_length d ->
  bytes_ok (_buf d) = true ->
  fetch_unaligned_signed bit_length d
  = (Ok (twos_complement
           (bits_value (stream_bits (_buf d) (_bit_offset d) (Z.to_nat bit_length)))
           bit_length),
     advanced d bit_length).
Proof.
  intros Hbl Hoff Hrem Hbytes. unfold fetch_unaligned_signed.
  rewrite bind_assert by lia.
  rewrite (bind_Ok _ _ _ _ _ (unsigned_read_value d bit_length ltac:(lia) Hoff Hrem Hbytes)).
  reflexivity.
Qed.

(** X10: [require_remaining_bit_length(minimum)] raises FormatError,
    leaving the deserializer as it was, when fewer than [minimum] bits
    remain, and otherwise returns without moving the cursor; after it has
    passed, every well-formed read that makes no alignment assumption and
    asks for at most [minimum] bits succeeds, moving the cursor by exactly
    the length asked for: no IndexError can follow a passed check. *)
Theorem validated_reads_succeed (d : Deserializer) (minimum : Z) :
  0 <= _bit_offset d ->
  bytes_ok (_buf d) = true ->
  (remaining_bit_length d < minimum ->
   require_remaining_bit_length minimum d = (Raise FormatError, d)) /\
  (minimum <= remaining_bit_length d ->
   require_remaining_bit_length minimum d = (Ok tt, d) /\
   forall op, unaligned_request op = true ->
     fetched_bit_length op <= minimum ->
     exists v, perform op d = (Ok v, advanced d (fetched_bit_length op))).
Proof.
  intros Hoff Hbytes. rewrite require_remaining_bit_length_outcome.
  split; intros Hrem.
  - destruct (Z.ltb_spec (remaining_bit_length d) minimum); [reflexivity | lia].
  - destruct (Z.ltb_spec (remaining_bit_length d) minimum); [lia|].
    split; [reflexivity|].
    intros op Hop Hlen.
    destruct op; cbn [unaligned_request] in Hop; try discriminate Hop;
      cbn [fetched_bit_length perform] in *; unfold returning; reflect_tests.
    + rewrite (bind_Ok _ _ _ _ _ (validated_bits_read d count Hoff ltac:(lia) Hbytes)).
      eexists. reflexivity.
    + destruct (validated_bytes_read d count (count * 8) Hoff) as (out & Hout & _);
        [lia | Z.to_euclidean_division_equations; lia | lia | exact Hbytes |].
      rewrite (bind_Ok _ _ _ _ _ Hout). eexists. reflexivity.
    + rewrite (bind_Ok _ _ _ _ _ (unsigned_read_value d bit_length ltac:(lia) Hoff
                                    ltac:(lia) Hbytes)).
      eexists. reflexivity.
    + rewrite (bind_Ok _ _ _ _ _ (signed_read_value d bit_length ltac:(lia) Hoff
                                    ltac:(lia) Hbytes)).
      eexists. reflexivity.
    + destruct (float_bytes_read d 2 ltac:(lia) Hoff ltac:(lia) Hbytes) as (out & Hout).
      assert (Hf : fetch_unaligned_f16 d = (Ok (Py.le_pattern out), advanced d 16))
        by (unfold fetch_unaligned_f16; rewrite (bind_Ok _ _ _ _ _ Hout); reflexivity).
      rewrite (bind_Ok _ _ _ _ _ Hf). eexists. reflexivity.
    + destruct (float_bytes_read d 4 ltac:(lia) Hoff ltac:(lia) Hbytes) as (out & Hout).
      assert (Hf : fetch_unaligned_f32 d = (Ok (Py.le_pattern out), advanced d 32))
        by (unfold fetch_unaligned_f32; rewrite (bind_Ok _ _ _ _ _ Hout); reflexivity).
      rewrite (bind_Ok _ _ _ _ _ Hf). eexists. reflexivity.
    + destruct (float_bytes_read d 8 ltac:(lia) Hoff ltac:(lia) Hbytes) as (out & Hout).
      assert (Hf : fetch_unaligned_f64 d = (Ok (Py.le_pattern out), advanced d 64))
        by (unfold fetch_unaligned_f64; rewrite (bind_Ok _ _ _ _ _ Hout); reflexivity).
      rewrite (bind_Ok _ _ _ _ _ Hf). eexists. reflexivity.
    + destruct (single_bit_read d Hoff) as [Hbit _].
      rewrite (bind_Ok _ _ _ _ _ (Hbit ltac:(lia))). eexists. reflexivity.
Qed.

Lemma validated_reads_succeed_witness :
  (remaining_bit_length (new little test_buffer) < 32 ->
   require_remaining_bit_length 32 (new little test_buffer)
   = (Raise FormatError, new little test_buffer)) /\
  (32 <= remaining_bit_length (new little test_buffer) ->
   require_remaining_bit_length 32 (new little test_buffer) = (Ok tt, new little test_buffer) /\
   forall op, unaligned_request op = true ->
     fetched_bit_length op <= 32 ->
     exists v, perform op (new little test_buffer)
               = (Ok v, advanced (new little test_buffer) (fetched_bit_length op))).
Proof.
  apply (validated_reads_succeed (new little test_buffer) 32);
    vm_compute; try reflexivity; discriminate.
Defined.

(** ** Arrays of standard-width primitives *)

Lemma chunks_of_prefix (count k : nat) : forall l : list Z,
  Py.chunks count k (take (k * count) l) = Py.chunks count k l.
Proof.
  induction count as [|count IH]; intros l; [reflexivity|].
  cbn [Py.chunks]. f_equal.
  - rewrite take_take. f_equal. lia.
  - rewrite <- (IH (drop k l)). f_equal.
    rewrite take_drop_commute. do 2 f_equal. lia.
Qed.

Lemma chunks_length (count k : nat) : forall l : list Z,
  length (Py.chunks count k l) = count.
Proof. induction count as [|count IH]; intros l; cbn; [reflexivity | rewrite IH; reflexivity]. Qed.

Lemma itemsize_pos t : 1 <= itemsize t <= 8.
Proof. destruct t; cbn; lia. Qed.

(** X11: on a little-endian host, at a byte-aligned cursor inside the
    buffer and for a non-negative count, the aligned and the unaligned
    array reads return the same [count] items and the same final state when
    [count * itemsize] bytes remain; when they do not, both leave the
    deserializer untouched but fail differently: the aligned read with
    ValueError, the unaligned one with IndexError. *)
Theorem array_reads_at_aligned_cursor (d : Deserializer) (t : dtype) (count : Z) :
  _cls d = little ->
  0 <= _bit_offset d ->
  _bit_offset d mod 8 = 0 ->
  0 <= remaining_bit_length d ->
  0 <= count ->
  let aligned := fetch_aligned_array_of_standard_bit_length_primitives t count d in
  let unaligned := fetch_unaligned_array_of_standard_bit_length_primitives t count d in
  if count * itemsize t * 8 <=? remaining_bit_length d
  then exists items,
         aligned = (Ok items, advanced d (count * itemsize t * 8)) /\
         unaligned = aligned /\ Py.len items = count
  else aligned = (Raise ValueError, d) /\ unaligned = (Raise IndexError, d).
Proof.
  intros Hcls Hoff Haligned Hrem Hcount aligned unaligned.
  pose proof (itemsize_pos t) as Hk.
  pose proof (aligned_byte_offset d Haligned) as Hq.
  assert (Hq0 : 0 <= _byte_offset d) by lia.
  unfold remaining_bit_length, _buf_bit_length in *.
  set (k := itemsize t) in *.
  assert (Ha : aligned
               = match Py.frombuffer (_buf d) k count (_byte_offset d) with
                 | Ok out => if Py.len out =? count
                             then (Ok out, advanced d (Py.len out * k * 8))
                             else (Raise AssertionError, d)
                 | Raise e => (Raise e, d)
                 end).
  { subst aligned. unfold fetch_aligned_array_of_standard_bit_length_primitives.
    rewrite bind_self, Hcls. rewrite bind_assert by (apply Z.eqb_eq; exact Haligned).
    fold k. unfold bind at 1. unfold lift.
    destruct (Py.frombuffer _ _ _ _) as [out|e]; [|reflexivity].
    destruct (Py.len out =? count); reflexivity. }
  assert (Hfrom : Py.frombuffer (_buf d) k count (_byte_offset d)
                  = if Py.len (_buf d) - _byte_offset d <? count * k
                    then Raise ValueError
                    else Ok (Py.le_pattern <$> Py.chunks (Z.to_nat count) (Z.to_nat k)
                                                 (drop (Z.to_nat (_byte_offset d)) (_buf d)))).
  { unfold Py.frombuffer.
    destruct (Z.ltb_spec (_byte_offset d) 0); [lia|].
    destruct (Z.ltb_spec (Py.len (_buf d)) (_byte_offset d)); [lia|]. cbn [orb].
    destruct (Z.ltb_spec count 0); [lia|]. reflexivity. }
  destruct (Z.leb_spec (count * k * 8) (Py.len (_buf d) * 8 - _bit_offset d)) as [Hfit | Hshort].
  - set (items := Py.le_pattern <$> Py.chunks (Z.to_nat count) (Z.to_nat k)
                                      (drop (Z.to_nat (_byte_offset d)) (_buf d))).
    assert (Hlen : Py.len items = count)
      by (subst items; unfold Py.len; rewrite length_fmap, chunks_length; lia).
    exists items.
    assert (Hal : aligned = (Ok items, advanced d (count * k * 8))).
    { rewrite Ha, Hfrom. destruct (Z.ltb_spec (Py.len (_buf d) - _byte_offset d) (count * k)); [lia|].
      fold items. rewrite Hlen, Z.eqb_refl. reflexivity. }
    split; [exact Hal|]. split; [|exact Hlen].
    rewrite Hal. subst unaligned.
    unfold fetch_unaligned_array_of_standard_bit_length_primitives.
    rewrite bind_self, Hcls. fold k.
    destruct (Z.eq_dec count 0) as [-> | Hpos].
    + rewrite Z.mul_0_r. unfold fetch_unaligned_bytes. cbn [Z.gtb Z.compare].
      unfold bind, ret, assert, lift. cbn. rewrite advanced_0.
      subst items. destruct (Z.ltb_spec (Py.len (@nil Z) - 0) 0); reflexivity.
    + unfold bind at 1.
      rewrite aligned_bytes_delegate, fetch_aligned_bytes_outcome by (assumption || lia).
      cbv zeta.
      destruct (slice_window (_buf d) (_byte_offset d) (k * count)) as [Hslice Hslen];
        [lia..|].
      rewrite Hslen, Z.eqb_refl.
      rewrite bind_assert by (apply Z.geb_le; rewrite Hslen; nia).
      unfold lift, Py.frombuffer. rewrite Hslen. cbn [Z.ltb Z.compare orb].
      destruct (Z.ltb_spec (k * count) 0); [lia|]. cbn [orb].
      destruct (Z.ltb_spec count 0); [lia|].
      destruct (Z.ltb_spec (k * count - 0) (count * k)); [lia|].
      change (Z.to_nat 0) with 0%nat. rewrite drop_0, Hslice.
      replace (Z.to_nat (k * count)) with (Z.to_nat k * Z.to_nat count)%nat by lia.
      rewrite chunks_of_prefix. f_equal. apply advanced_eq. lia.
  - split.
    + rewrite Ha, Hfrom.
      destruct (Z.ltb_spec (Py.len (_buf d) - _byte_offset d) (count * k)); [reflexivity | lia].
    + subst unaligned. unfold fetch_unaligned_array_of_standard_bit_length_primitives.
      rewrite bind_self, Hcls. fold k.
      unfold bind at 1.
      rewrite aligned_bytes_delegate, fetch_aligned_bytes_outcome by (assumption || nia).
      cbv zeta.
      pose proof (slice_length_le (_buf d) (_byte_offset d) (_byte_offset d + k * count) Hq0).
      destruct (Z.eqb_spec (Py.len (Py.slice (_buf d) (_byte_offset d)
                                      (_byte_offset d + k * count))) (k * count));
        [lia | reflexivity].
Qed.

Lemma array_reads_at_aligned_cursor_witness :
  (exists items,
     fetch_aligned_array_of_standard_bit_length_primitives uint16 2
       (advanced (new little aligned_sample) 296)
     = (Ok items, advanced (advanced (new little aligned_sample) 296) (2 * itemsize uint16 * 8)) /\
     fetch_unaligned_array_of_standard_bit_length_primitives uint16 2
       (advanced (new little aligned_sample) 296)
     = fetch_aligned_array_of_standard_bit_length_primitives uint16 2
         (advanced (new little aligned_sample) 296) /\
     Py.len items = 2) /\
  (fetch_aligned_array_of_standard_bit_length_primitives uint32 2 (new little test_buffer)
   = (Raise ValueError, new little test_buffer) /\
   fetch_unaligned_array_of_standard_bit_length_primitives uint32 2 (new little test_buffer)
   = (Raise IndexError, new little test_buffer)).
Proof.
  split.
  - apply (array_reads_at_aligned_cursor (advanced (new little aligned_sample) 296) uint16 2);
      vm_compute; try reflexivity; discriminate.
  - apply (array_reads_at_aligned_cursor (new little test_buffer) uint32 2);
      vm_compute; try reflexivity; discriminate.
Defined.

(** ** Short input at the deserialize boundary *)

(** X12: for a class whose decoder starts with the length check
    [require_remaining_bit_length(minimum)], any fragment sequence holding
    fewer than [minimum] bits in total makes [deserialize] return None,
    whatever the rest of the decoder does; the log then holds exactly one
    record, with the class's model and the untouched deserializer, when
    INFO logging is enabled and nothing otherwise. *)
Theorem deserialize_short_input {Model Serializer V : Type}
    (dtype : CompositeObject Model Serializer V) (minimum : Z) (rest : M V)
    (order : byteorder) (info_enabled : bool) (fragments : list (list Z)) :
  _deserialize_aligned_ dtype
  = (fun d => (let* _ := require_remaining_bit_length minimum in rest) d) ->
  Py.len (mjoin fragments) * 8 < minimum ->
  deserialize order info_enabled dtype fragments
  = (Ok None,
     if info_enabled
     then [ {| logged_model := get_model dtype;
               logged_deserializer := new order (mjoin fragments) |} ]
     else []).
Proof.
  intros Hdecode Hshort. unfold deserialize.
  rewrite contiguous_join, Hdecode. unfold bind.
  rewrite require_remaining_bit_length_outcome.
  destruct (Z.ltb_spec (remaining_bit_length (new order (mjoin fragments))) minimum) as [_ | Hge].
  - reflexivity.
  - unfold remaining_bit_length, _buf_bit_length, new in Hge. cbn in Hge. lia.
Qed.

Lemma deserialize_short_input_witness :
  deserialize little true Octet [[]; []]
  = (Ok None,
     [ {| logged_model := get_model Octet;
          logged_deserializer := new little (mjoin [[]; []]) |} ]).
Proof.
  apply (deserialize_short_input Octet 8 fetch_aligned_u8 little true [[]; []]).
  - reflexivity.
  - vm_compute. reflexivity.
Defined.

(** ** Attribute round trip *)

Section AttributeRoundTrip.

Context {Value : Type}.
Implicit Types (obj : gmap string Value) (name : string) (value : Value).


End AttributeRoundTrip.


(** ** Aligned reads: when they succeed and how they fail *)

(** X14: at a byte-aligned cursor inside the buffer, the aligned byte read
    succeeds exactly when [0 <= count] and [count] whole bytes remain; it
    then returns those bytes and moves the cursor by [8 * count].
    Otherwise, a negative count included, it raises IndexError and the
    deserializer is as before. *)
Theorem fetch_aligned_bytes_spec (d : Deserializer) (count : Z) :
  0 <= _bit_offset d ->
  _bit_offset d mod 8 = 0 ->
  0 <= remaining_bit_length d ->
  fetch_aligned_bytes count d
  = if (0 <=? count) && (count * 8 <=? remaining_bit_length d)
    then (Ok (take (Z.to_nat count) (drop (Z.to_nat (_byte_offset d)) (_buf d))),
          advanced d (count * 8))
    else (Raise IndexError, d).
Proof.
  intros Hoff Haligned Hrem.
  pose proof (aligned_byte_offset d Haligned) as Hq.
  rewrite fetch_aligned_bytes_outcome by exact Haligned. cbv zeta.
  unfold remaining_bit_length, _buf_bit_length in *.
  destruct (Z.leb_spec 0 count) as [Hpos | Hneg]; cbn [andb].
  - destruct (Z.leb_spec (count * 8) (Py.len (_buf d) * 8 - _bit_offset d)) as [Hfit | Hshort].
    + destruct (slice_window (_buf d) (_byte_offset d) count) as [Hslice Hlen]; [lia..|].
      rewrite Hlen, Z.eqb_refl, Hslice. reflexivity.
    + pose proof (slice_length_le (_buf d) (_byte_offset d) (_byte_offset d + count)
                    ltac:(lia)) as Hle.
      destruct (Z.eqb_spec (Py.len (Py.slice (_buf d) (_byte_offset d)
                                      (_byte_offset d + count))) count);
        [lia | reflexivity].
  - destruct (Z.eqb_spec (Py.len (Py.slice (_buf d) (_byte_offset d)
                                    (_byte_offset d + count))) count) as [Heq | Hne];
      [|reflexivity].
    unfold Py.len in Heq. lia.
Qed.

Lemma fetch_aligned_bytes_spec_witness :
  fetch_aligned_bytes 2 (advanced (new little test_buffer) 8)
  = (Ok (take (Z.to_nat 2) (drop (Z.to_nat 1) test_buffer)),
     advanced (advanced (new little test_buffer) 8) (2 * 8)) /\
  fetch_aligned_bytes (-1) (advanced (new little test_buffer) 8)
  = (Raise IndexError, advanced (new little test_buffer) 8).
Proof.
  split.
  - apply (fetch_aligned_bytes_spec (advanced (new little test_buffer) 8) 2);
      vm_compute; try reflexivity; discriminate.
  - apply (fetch_aligned_bytes_spec (advanced (new little test_buffer) 8) (-1));
      vm_compute; try reflexivity; discriminate.
Defined.

(** X15: at a byte-aligned cursor inside the buffer, the aligned unsigned
    read of [bit_length >= 1] bits succeeds exactly when [bit_length] bits
    remain, returning the value of the next [bit_length] stream bits;
    otherwise it raises IndexError before moving the cursor. *)
Theorem fetch_aligned_unsigned_spec (d : Deserializer) (bit_length : Z) :
  1 <= bit_length ->
  0 <= _bit_offset d ->
  _bit_offset d mod 8 = 0 ->
  0 <= remaining_bit_length d ->
  bytes_ok (_buf d) = true ->
  fetch_aligned_unsigned bit_length d
  = if bit_length <=? remaining_bit_length d
    then (Ok (bits_value (stream_bits (_buf d) (_bit_offset d) (Z.to_nat bit_length))),
          advanced d bit_length)
    else (Raise IndexError, d).
Proof.
  intros Hbl Hoff Haligned Hrem Hbytes.
  destruct (Z.leb_spec bit_length (remaining_bit_length d)) as [Hfit | Hshort].
  - rewrite <- unsigned_paths_agree by assumption.
    apply unsigned_read_value; assumption.
  - pose proof (aligned_byte_offset d Haligned) as Hq.
    unfold remaining_bit_length, _buf_bit_length in *.
    unfold fetch_aligned_unsigned. rewrite bind_self.
    rewrite bind_assert by (apply Z.eqb_eq; exact Haligned).
    pose proof (slice_length_le (_buf d) (_byte_offset d)
                  (_byte_offset d + (bit_length + 7) / 8) ltac:(lia)) as Hle.
    destruct (Z.ltb_spec (Py.len (Py.slice (_buf d) (_byte_offset d)
                                    (_byte_offset d + (bit_length + 7) / 8)) * 8) bit_length);
      [reflexivity | lia].
Qed.

Lemma fetch_aligned_unsigned_spec_witness :
  fetch_aligned_unsigned 12 (advanced (new little test_buffer) 16)
  = (Ok (bits_value (stream_bits test_buffer 16 (Z.to_nat 12))),
     advanced (advanced (new little test_buffer) 16) 12) /\
  fetch_aligned_unsigned 64 (new little [1; 2; 3]) = (Raise IndexError, new little [1; 2; 3]).
Proof.
  split.
  - apply (fetch_aligned_unsigned_spec (advanced (new little test_buffer) 16) 12);
      vm_compute; try reflexivity; discriminate.
  - apply (fetch_aligned_unsigned_spec (new little [1; 2; 3]) 64);
      vm_compute; try reflexivity; discriminate.
Defined.

(** ** Unaligned byte reads that run out of buffer *)

Lemma unaligned_byte_step_short left right i out d :
  0 <= _byte_offset d ->
  Py.len (_buf d) <= _byte_offset d + 1 ->
  unaligned_byte_step left right i out d = (Raise IndexError, d).
Proof.
  intros Hq Hshort. unfold unaligned_byte_step. rewrite bind_self. cbv zeta.
  destruct (Z_lt_le_dec (_byte_offset d) (Py.len (_buf d))) as [Hin | Hout].
  - destruct (index_in_range (_buf d) (_byte_offset d)) as (a & _ & Ha); [lia|].
    rewrite (bind_lift_Ok _ _ _ a Ha).
    destruct (index_past_end (_buf d) (_byte_offset d + 1)) as [_ Hb]; [lia|].
    unfold bind, lift. rewrite Hb. reflexivity.
  - destruct (index_past_end (_buf d) (_byte_offset d)) as [_ Ha]; [lia|].
    unfold bind, lift. rewrite Ha. reflexivity.
Qed.

Lemma unaligned_loop_short left right (m : nat) : forall (s k : nat) out d,
  0 <= _byte_offset d ->
  Z.of_nat m = Z.max 0 (Py.len (_buf d) - 1 - _byte_offset d) ->
  (m < k)%nat ->
  for_each (Z.of_nat <$> seq s k) (unaligned_byte_step left right) out d
  = (Raise IndexError, advanced d (8 * Z.of_nat m)).
Proof.
  induction m as [|m IH]; intros s k out d Hq Hm Hk;
    (destruct k as [|k]; [lia|]); cbn [seq fmap list_fmap for_each].
  - unfold bind. rewrite unaligned_byte_step_short by lia.
    rewrite advanced_0. reflexivity.
  - destruct (index_in_range (_buf d) (_byte_offset d)) as (a & _ & Ha); [lia|].
    destruct (index_in_range (_buf d) (_byte_offset d + 1)) as (b & _ & Hb); [lia|].
    unfold bind at 1.
    rewrite (unaligned_byte_step_total left right (Z.of_nat s) out d a b Ha Hb).
    change (list_fmap nat Z Z.of_nat (seq (S s) k)) with (Z.of_nat <$> seq (S s) k).
    rewrite IH.
    + f_equal. rewrite advanced_advanced. apply advanced_eq. lia.
    + rewrite byte_offset_advanced_8. lia.
    + rewrite byte_offset_advanced_8. cbn [_buf advanced]. lia.
    + lia.
Qed.

(** X16: at an unaligned cursor a read of [count >= 1] bytes succeeds
    exactly when the [count] source bytes it starts from exist, that is
    when [byte_offset + count <= len(buffer)]; up to seven bits may then be
    missing at the end, they read as zero and the cursor ends past the end
    of the buffer.  Otherwise it raises IndexError, and it is not atomic:
    the cursor keeps the whole bytes copied before the fault. *)
Theorem fetch_unaligned_bytes_outcome (d : Deserializer) (count : Z) :
  0 <= _bit_offset d ->
  _bit_offset d mod 8 <> 0 ->
  1 <= count ->
  fetch_unaligned_bytes count d
  = if _byte_offset d + count <=? Py.len (_buf d)
    then (Ok (unaligned_byte (_buf d) (_bit_offset d mod 8)
                <$> seq (Z.to_nat (_byte_offset d)) (Z.to_nat count)),
          advanced d (count * 8))
    else (Raise IndexError,
          advanced d (8 * Z.max 0 (Py.len (_buf d) - 1 - _byte_offset d))).
Proof.
  intros Hoff Hmis Hcount.
  destruct (Z.leb_spec (_byte_offset d + count) (Py.len (_buf d))) as [Hfit | Hshort].
  - apply unaligned_copy_content; assumption.
  - assert (Hq : 0 <= _byte_offset d) by (unfold _byte_offset; apply Z.div_pos; lia).
    set (left := _bit_offset d mod 8).
    assert (Hleft : 1 <= left <= 7)
      by (subst left; pose proof (Z.mod_pos_bound (_bit_offset d) 8); lia).
    unfold fetch_unaligned_bytes.
    destruct (count >? 0) eqn:Epos; [|lia].
    rewrite bind_self.
    destruct (_bit_offset d mod 8 =? 0) eqn:Ealigned; [apply Z.eqb_eq in Ealigned; lia|].
    cbn [negb]. fold left. rewrite bind_assert by lia.
    destruct (Z.eq_dec count 1) as [-> | Hmore].
    + change (Py.range (1 - 1)) with (@nil Z). cbn [for_each].
      unfold bind at 1. unfold ret. rewrite bind_self.
      destruct (index_past_end (_buf d) (_byte_offset d)) as [_ Ha]; [lia|].
      unfold bind, lift. rewrite Ha.
      rewrite Z.max_l by lia. rewrite advanced_0. reflexivity.
    + unfold Py.range. unfold bind at 1.
      rewrite (unaligned_loop_short left (8 - left)
                 (Z.to_nat (Z.max 0 (Py.len (_buf d) - 1 - _byte_offset d))))
        by lia.
      rewrite Z2Nat.id by lia. reflexivity.
Qed.

Lemma fetch_unaligned_bytes_outcome_witness :
  fetch_unaligned_bytes 1 (advanced (new little test_buffer) 27)
  = (Ok (unaligned_byte test_buffer 3 <$> seq 3 1),
     advanced (advanced (new little test_buffer) 27) (1 * 8)) /\
  fetch_unaligned_bytes 5 (advanced (new little test_buffer) 3)
  = (Raise IndexError, advanced (advanced (new little test_buffer) 3) 24).
Proof.
  split.
  - apply (fetch_unaligned_bytes_outcome (advanced (new little test_buffer) 27) 1);
      vm_compute; try reflexivity; discriminate.
  - apply (fetch_unaligned_bytes_outcome (advanced (new little test_buffer) 3) 5);
      vm_compute; try reflexivity; discriminate.
Defined.
